(** * Echo voice assistant: session, conversation and playback logic

    A shallow embedding of [src/App.tsx] (with the types of
    [src/types.ts]).  The React component keeps three pieces of UI state
    ([status], [conversation], [error]) and nine mutable refs; every
    callback of the component ([handleMessage], [handleError],
    [handleClose], [stopSession], [startSession], [toggleSession], the
    [onopen] and [onaudioprocess] closures and the ['ended'] listener) is
    embedded as a computation over one record holding all of them.

    Conventions of the embedding.
    - A callback runs to completion before the next one starts: the
      browser event loop is single threaded, and the only suspension
      points inside a callback are [await]s on promises that are already
      settled (or settle without another callback of this component
      running in between).
    - A computation either returns or throws; it also emits the calls it
      makes on browser and SDK objects as a list of effects.
    - Values the callbacks read from the outside world (the output audio
      clock, [Date.now()], the outcome of [getUserMedia] and of
      [ai.live.connect]) are arguments of the embedded callback.
    - [./utils/audio] ([encode], [decode], [decodeAudioData]) is imported
      by the component, not defined by it: the three functions are
      parameters.
    - A JavaScript number used as a time is the rational it denotes
      (clock readings, durations and the cursor are finite); [Math.max]
      and the comparisons are exact on them, and [+] on two times is a
      parameter, [add], with binary64 addition as its instance.  Sample
      values are IEEE 754 binary64 numbers ([spec_float]).
    - A JavaScript string is a [string] whose characters stand for
      UTF-16 code units below 256. *)

From Stdlib Require Import ZArith QArith Bool List String Ascii Lia SpecFloat.
Import ListNotations.

Set Implicit Arguments.

(* ------------------------------------------------------------------ *)
(** ** src/types.ts *)

Inductive AssistantStatus : Type :=
| Idle | Listening | Speaking | Thinking | Error.

Inductive Speaker : Type := User | Ai.

Record Message : Type := mkMessage {
  id : Z;
  speaker : Speaker;
  text : string
}.

(* ------------------------------------------------------------------ *)
(** ** The part of the SDK's [LiveServerMessage] the component reads

    Every field the source reaches through [?.] is optional. *)

Record Transcription : Type := mkTranscription {
  transcript : option string      (* [.text] *)
}.

Record Blob : Type := mkBlob {
  data : option string
}.

Record Part : Type := mkPart {
  inlineData : option Blob
}.

Record Content : Type := mkContent {
  parts : option (list Part)
}.

Record LiveServerContent : Type := mkServerContent {
  outputTranscription : option Transcription;
  inputTranscription : option Transcription;
  turnComplete : bool;
  modelTurn : option Content;
  interrupted : bool
}.

Record LiveServerMessage : Type := mkServerMessage {
  serverContent : option LiveServerContent
}.

(* ------------------------------------------------------------------ *)
(** ** Browser objects held in refs *)

(** A [Promise<LiveSession>], by the way it settles. *)
Inductive SessionPromise : Type := Fulfilled | Rejected.

Inductive AudioContextState : Type := Suspended | Running | Closed.

Record AudioContext : Type := mkAudioContext {
  sampleRate : Z;
  state : AudioContextState
}.

Record MediaStream : Type := mkMediaStream {
  getTracks : list nat
}.

Record ScriptProcessorNode : Type := mkScriptProcessor {
  bufferSize : Z;
  numberOfInputChannels : Z;
  numberOfOutputChannels : Z
}.

Record AudioBuffer : Type := mkAudioBuffer {
  duration : Q
}.

(** [node] is the identity of the object: [Set] membership of
    [audioSources] is by object identity. *)
Record AudioBufferSourceNode : Type := mkSourceNode {
  node : nat;
  buffer : AudioBuffer
}.

(* ------------------------------------------------------------------ *)
(** ** The component's state and refs *)

Record State : Type := mkState {
  status : AssistantStatus;
  conversation : list Message;
  error : option string;
  liveSessionPromise : option SessionPromise;
  inputAudioContext : option AudioContext;
  outputAudioContext : option AudioContext;
  microphoneStream : option MediaStream;
  scriptProcessorNode : option ScriptProcessorNode;
  userInputRef : string;
  aiOutputRef : string;
  nextAudioStartTime : Q;
  audioSources : list AudioBufferSourceNode;  (* a [Set], in insertion order *)
  created : nat   (* number of source nodes created so far *)
}.

Definition initial : State :=
  {| status := Idle; conversation := []; error := None;
     liveSessionPromise := None; inputAudioContext := None;
     outputAudioContext := None; microphoneStream := None;
     scriptProcessorNode := None; userInputRef := EmptyString; aiOutputRef := EmptyString;
     nextAudioStartTime := 0; audioSources := []; created := 0 |}.

Definition setStatus (v : AssistantStatus) (s : State) : State :=
  mkState v (conversation s) (error s) (liveSessionPromise s)
    (inputAudioContext s) (outputAudioContext s) (microphoneStream s)
    (scriptProcessorNode s) (userInputRef s) (aiOutputRef s)
    (nextAudioStartTime s) (audioSources s) (created s).

(** [setConversation] always takes an updater function in the source. *)
Definition setConversation (f : list Message -> list Message) (s : State) : State :=
  mkState (status s) (f (conversation s)) (error s) (liveSessionPromise s)
    (inputAudioContext s) (outputAudioContext s) (microphoneStream s)
    (scriptProcessorNode s) (userInputRef s) (aiOutputRef s)
    (nextAudioStartTime s) (audioSources s) (created s).

Definition setError (v : option string) (s : State) : State :=
  mkState (status s) (conversation s) v (liveSessionPromise s)
    (inputAudioContext s) (outputAudioContext s) (microphoneStream s)
    (scriptProcessorNode s) (userInputRef s) (aiOutputRef s)
    (nextAudioStartTime s) (audioSources s) (created s).

Definition set_liveSessionPromise (v : option SessionPromise) (s : State) : State :=
  mkState (status s) (conversation s) (error s) v
    (inputAudioContext s) (outputAudioContext s) (microphoneStream s)
    (scriptProcessorNode s) (userInputRef s) (aiOutputRef s)
    (nextAudioStartTime s) (audioSources s) (created s).

Definition set_inputAudioContext (v : option AudioContext) (s : State) : State :=
  mkState (status s) (conversation s) (error s) (liveSessionPromise s)
    v (outputAudioContext s) (microphoneStream s)
    (scriptProcessorNode s) (userInputRef s) (aiOutputRef s)
    (nextAudioStartTime s) (audioSources s) (created s).

Definition set_outputAudioContext (v : option AudioContext) (s : State) : State :=
  mkState (status s) (conversation s) (error s) (liveSessionPromise s)
    (inputAudioContext s) v (microphoneStream s)
    (scriptProcessorNode s) (userInputRef s) (aiOutputRef s)
    (nextAudioStartTime s) (audioSources s) (created s).

Definition set_microphoneStream (v : option MediaStream) (s : State) : State :=
  mkState (status s) (conversation s) (error s) (liveSessionPromise s)
    (inputAudioContext s) (outputAudioContext s) v
    (scriptProcessorNode s) (userInputRef s) (aiOutputRef s)
    (nextAudioStartTime s) (audioSources s) (created s).

Definition set_scriptProcessorNode (v : option ScriptProcessorNode) (s : State) : State :=
  mkState (status s) (conversation s) (error s) (liveSessionPromise s)
    (inputAudioContext s) (outputAudioContext s) (microphoneStream s)
    v (userInputRef s) (aiOutputRef s)
    (nextAudioStartTime s) (audioSources s) (created s).

Definition set_userInputRef (v : string) (s : State) : State :=
  mkState (status s) (conversation s) (error s) (liveSessionPromise s)
    (inputAudioContext s) (outputAudioContext s) (microphoneStream s)
    (scriptProcessorNode s) v (aiOutputRef s)
    (nextAudioStartTime s) (audioSources s) (created s).

Definition set_aiOutputRef (v : string) (s : State) : State :=
  mkState (status s) (conversation s) (error s) (liveSessionPromise s)
    (inputAudioContext s) (outputAudioContext s) (microphoneStream s)
    (scriptProcessorNode s) (userInputRef s) v
    (nextAudioStartTime s) (audioSources s) (created s).

Definition set_nextAudioStartTime (v : Q) (s : State) : State :=
  mkState (status s) (conversation s) (error s) (liveSessionPromise s)
    (inputAudioContext s) (outputAudioContext s) (microphoneStream s)
    (scriptProcessorNode s) (userInputRef s) (aiOutputRef s)
    v (audioSources s) (created s).

Definition set_audioSources (v : list AudioBufferSourceNode) (s : State) : State :=
  mkState (status s) (conversation s) (error s) (liveSessionPromise s)
    (inputAudioContext s) (outputAudioContext s) (microphoneStream s)
    (scriptProcessorNode s) (userInputRef s) (aiOutputRef s)
    (nextAudioStartTime s) v (created s).

Definition set_created (v : nat) (s : State) : State :=
  mkState (status s) (conversation s) (error s) (liveSessionPromise s)
    (inputAudioContext s) (outputAudioContext s) (microphoneStream s)
    (scriptProcessorNode s) (userInputRef s) (aiOutputRef s)
    (nextAudioStartTime s) (audioSources s) v.

(* ------------------------------------------------------------------ *)
(** ** Computations: state, exceptions and emitted effects *)

Inductive Effect : Type :=
| ConsoleLog (line : string)
| ConsoleError (line : string)
| SessionClose
| TrackStop (track : nat)
| NodeDisconnect (n : ScriptProcessorNode)
| ContextClose (ctx : AudioContext)
| SourceStart (source : AudioBufferSourceNode) (when : Q)
| SourceStop (source : AudioBufferSourceNode)
| SendRealtimeInput (payload : string) (mimeType : string).

Inductive Exception : Type :=
| NotAllowedError      (* [getUserMedia] rejects *)
| ConnectError         (* [ai.live.connect] (or the client constructor) throws *)
| SessionRejected      (* awaiting a rejected [liveSessionPromise] *)
| DecodeError          (* [decode] / [decodeAudioData] throws *)
| TypeError.           (* member access on [null] *)

Inductive Outcome (A : Type) : Type :=
| Returns (a : A) (s : State) (fx : list Effect)
| Throws (e : Exception) (s : State) (fx : list Effect).

Arguments Throws {A} e s fx.

Definition M (A : Type) : Type := State -> Outcome A.

Definition ret {A} (a : A) : M A := fun s => Returns a s [].

(** The effects emitted so far, put in front of those of what follows. *)
Definition prepend {A} (fx1 : list Effect) (o : Outcome A) : Outcome A :=
  match o with
  | Returns b s fx2 => Returns b s (fx1 ++ fx2)
  | Throws e s fx2 => Throws e s (fx1 ++ fx2)
  end.

Definition bind {A B} (m : M A) (k : A -> M B) : M B :=
  fun s =>
    match m s with
    | Returns a s1 fx1 => prepend fx1 (k a s1)
    | Throws e s1 fx1 => Throws e s1 fx1
    end.

Definition throw {A} (e : Exception) : M A := fun s => Throws e s [].

(** [try { body } catch (err) { handler }] *)
Definition try_catch {A} (body : M A) (handler : Exception -> M A) : M A :=
  fun s =>
    match body s with
    | Returns a s1 fx1 => Returns a s1 fx1
    | Throws e s1 fx1 => prepend fx1 (handler e s1)
    end.

(** A call that is not awaited: a rejection of the promise it returns is
    not seen by the caller. *)
Definition detached (m : M unit) : M unit :=
  try_catch m (fun _ => ret tt).

Definition get : M State := fun s => Returns s s [].
Definition modify (f : State -> State) : M unit := fun s => Returns tt (f s) [].
Definition emit (e : Effect) : M unit := fun s => Returns tt s [e].

Declare Scope js_scope.
Delimit Scope js_scope with js.
Notation "x <- m ;; k" := (bind m (fun x => k))
  (at level 61, m at next level, right associativity) : js_scope.
Notation "m ;; k" := (bind m (fun _ => k))
  (at level 61, right associativity) : js_scope.

Definition final {A} (o : Outcome A) : State :=
  match o with Returns _ s _ => s | Throws _ s _ => s end.

Definition effects {A} (o : Outcome A) : list Effect :=
  match o with Returns _ _ fx => fx | Throws _ _ fx => fx end.

Definition returned {A} (o : Outcome A) : bool :=
  match o with Returns _ _ _ => true | Throws _ _ _ => false end.

(** [for (const x of xs) body] *)
Fixpoint for_of {A} (xs : list A) (body : A -> M unit) : M unit :=
  match xs with
  | [] => ret tt
  | x :: rest => bind (body x) (fun _ => for_of rest body)
  end.

(* ------------------------------------------------------------------ *)
(** ** JavaScript primitives used by the component *)

(** [o?.f] *)
Definition chain {A B} (o : option A) (f : A -> option B) : option B :=
  match o with
  | Some a => f a
  | None => None
  end.

(** Truthiness of a string-or-undefined value: defined and not empty. *)
Definition truthy (o : option string) : option string :=
  match o with
  | Some EmptyString => None
  | other => other
  end.

(** [acc += v] where [v] may be [undefined]. *)
Definition append_js (acc : string) (v : option string) : string :=
  match v with
  | Some t => (acc ++ t)%string
  | None => (acc ++ "undefined")%string
  end.

(** White space and line terminators among the code units below 256:
    TAB, LF, VT, FF, CR, SP and NBSP. *)
Definition isWhiteSpace (c : ascii) : bool :=
  let n := N_of_ascii c in
  (N.eqb n 9 || N.eqb n 10 || N.eqb n 11 || N.eqb n 12 || N.eqb n 13
   || N.eqb n 32 || N.eqb n 160)%bool.

Fixpoint trimStart (s : string) : string :=
  match s with
  | EmptyString => EmptyString
  | String c rest => if isWhiteSpace c then trimStart rest else s
  end.

Fixpoint trimEnd (s : string) : string :=
  match s with
  | EmptyString => EmptyString
  | String c rest =>
      match trimEnd rest with
      | EmptyString => if isWhiteSpace c then EmptyString else String c EmptyString
      | kept => String c kept
      end
  end.

(** [String.prototype.trim] *)
Definition trim (s : string) : string := trimEnd (trimStart s).

Arguments trim : simpl never.

(** Truthiness of a string. *)
Definition nonempty (s : string) : bool :=
  match s with
  | EmptyString => false
  | String _ _ => true
  end.

(** [Math.max] on two numbers. *)
Definition Math_max (a b : Q) : Q := if Qle_bool a b then b else a.

(** [Set.prototype.add] and [Set.prototype.delete], by object identity. *)
Definition same_node (a b : AudioBufferSourceNode) : bool :=
  Nat.eqb (node a) (node b).

Definition Set_add (x : AudioBufferSourceNode) (l : list AudioBufferSourceNode)
  : list AudioBufferSourceNode :=
  if existsb (same_node x) l then l else l ++ [x].

Definition Set_delete (x : AudioBufferSourceNode) (l : list AudioBufferSourceNode)
  : list AudioBufferSourceNode :=
  filter (fun y => negb (same_node x y)) l.

(** *** Numbers and typed arrays *)

Definition binary64_of_Z (n : Z) : spec_float := binary_normalize 53 1024 n 0 false.

Definition binary64_mul : spec_float -> spec_float -> spec_float := SFmul 53 1024.

(** The integral part of a finite number, rounding towards zero; [0] for
    NaN, the infinities and the zeros. *)
Definition truncate (x : spec_float) : Z :=
  match x with
  | S754_finite sgn m e =>
      let magnitude :=
        match e with
        | Zneg k => Z.shiftr (Zpos m) (Zpos k)
        | _ => Z.shiftl (Zpos m) e
        end in
      if sgn then (- magnitude)%Z else magnitude
  | _ => 0%Z
  end.

(** ECMAScript [ToInt16], the conversion applied by a store into an
    [Int16Array]. *)
Definition ToInt16 (x : spec_float) : Z :=
  let int16bit := (truncate x mod 65536)%Z in
  if (int16bit >=? 32768)%Z then (int16bit - 65536)%Z else int16bit.

Definition byte_of_Z (z : Z) : Byte.byte :=
  match Byte.of_N (Z.to_N z) with
  | Some b => b
  | None => Byte.x00
  end.

(** [new Uint8Array(int16.buffer)]: two bytes per element, low byte
    first. *)
Definition Uint8Array_of_Int16Array (int16 : list Z) : list Byte.byte :=
  flat_map (fun v => [byte_of_Z (Z.land v 255); byte_of_Z (Z.land (Z.shiftr v 8) 255)])
           int16.

(* ------------------------------------------------------------------ *)
(** ** What the callbacks read from the outside world *)

(** [currentTime]: the output context's clock when [handleMessage] reads
    it; [dateNow k]: the value of the [k]-th call of [Date.now()] made
    for this message ([k = 0, 1]). *)
Record Env : Type := mkEnv {
  currentTime : Q;
  dateNow : nat -> Z
}.

(** [getUserMedia]: the stream, or [None] when the promise rejects;
    [connect]: the promise [ai.live.connect] returns, or [None] when
    building the client or calling [connect] throws. *)
Record Platform : Type := mkPlatform {
  getUserMedia : option MediaStream;
  connect : option SessionPromise
}.

Definition INPUT_SAMPLE_RATE : Z := 16000.
Definition OUTPUT_SAMPLE_RATE : Z := 24000.

(* ------------------------------------------------------------------ *)
(** ** The callbacks of [App] *)

Local Open Scope js_scope.

Section App.

(** [./utils/audio].  [decode] and [decodeAudioData] give [None] when
    they throw. *)
Variable encode : list Byte.byte -> string.
Variable decode : string -> option (list Byte.byte).
Variable decodeAudioData : list Byte.byte -> Z -> Z -> option AudioBuffer.

(** [+] on two times. *)
Variable add : Q -> Q -> Q.

(** [message.serverContent?.modelTurn?.parts[0]?.inlineData?.data]: its
    value, or the [TypeError] of indexing [parts] when the message has a
    [modelTurn] without [parts] ([?.] guards [modelTurn], not
    [parts]). *)
Definition base64Audio (message : LiveServerMessage) : Exception + option string :=
  match chain (serverContent message) modelTurn with
  | Some content =>
      match parts content with
      | Some ps => inr (chain (chain (hd_error ps) inlineData) data)
      | None => inl TypeError
      end
  | None => inr None
  end.

(** Truthiness of [message.serverContent?.f] for a boolean field [f]. *)
Definition flag (f : LiveServerContent -> bool) (message : LiveServerMessage) : bool :=
  match serverContent message with
  | Some content => f content
  | None => false
  end.

(** [source.addEventListener('ended', ...)] in [handleMessage]: the
    listener of one source node. *)
Definition onended (source : AudioBufferSourceNode) : M unit :=
  modify (fun s => set_audioSources (Set_delete source (audioSources s)) s) ;;
  s <- get ;;
  if Nat.eqb (List.length (audioSources s)) 0
  then modify (setStatus Listening)
  else ret tt.

(** [handleMessage], lines 64-68. *)
Definition takeFragments (message : LiveServerMessage) : M unit :=
  match chain (serverContent message) outputTranscription with
  | Some t =>
      modify (fun s => set_aiOutputRef (append_js (aiOutputRef s) (transcript t)) s)
  | None =>
      match chain (serverContent message) inputTranscription with
      | Some t =>
          modify (fun s => set_userInputRef (append_js (userInputRef s) (transcript t)) s)
      | None => ret tt
      end
  end.

(** [handleMessage], lines 70-84. *)
Definition completeTurn (env : Env) (message : LiveServerMessage) : M unit :=
  if flag turnComplete message then
    s <- get ;;
    let userText := trim (userInputRef s) in
    let aiText := trim (aiOutputRef s) in
    (if nonempty userText
     then modify (setConversation
                    (fun prev => prev ++ [mkMessage (dateNow env 0) User userText]))
     else ret tt) ;;
    (if nonempty aiText
     then modify (setConversation
                    (fun prev =>
                       prev ++ [mkMessage (dateNow env (if nonempty userText then 1 else 0) + 1)
                                          Ai aiText]))
     else ret tt) ;;
    modify (set_userInputRef EmptyString) ;;
    modify (set_aiOutputRef EmptyString) ;;
    modify (setStatus Listening)
  else ret tt.

(** [handleMessage], lines 86-106. *)
Definition playAudio (env : Env) (message : LiveServerMessage) : M unit :=
  base64 <- match base64Audio message with
            | inr value => ret value
            | inl e => throw e
            end ;;
  s <- get ;;
  match truthy base64, outputAudioContext s with
  | Some b64, Some ctx =>
      modify (setStatus Speaking) ;;
      modify (fun s => set_nextAudioStartTime
                         (Math_max (nextAudioStartTime s) (currentTime env)) s) ;;
      audioBuffer <- match chain (decode b64)
                                 (fun bytes => decodeAudioData bytes OUTPUT_SAMPLE_RATE 1) with
                     | Some b => ret b
                     | None => throw DecodeError
                     end ;;
      s <- get ;;
      let source := mkSourceNode (created s) audioBuffer in
      modify (set_created (S (created s))) ;;
      emit (SourceStart source (nextAudioStartTime s)) ;;
      modify (fun s => set_nextAudioStartTime
                         (add (nextAudioStartTime s) (duration audioBuffer)) s) ;;
      modify (fun s => set_audioSources (Set_add source (audioSources s)) s)
  | _, _ => ret tt
  end.

(** [handleMessage], lines 108-115. *)
Definition interrupt (message : LiveServerMessage) : M unit :=
  if flag interrupted message then
    s <- get ;;
    for_of (audioSources s)
           (fun source =>
              emit (SourceStop source) ;;
              modify (fun s => set_audioSources (Set_delete source (audioSources s)) s)) ;;
    modify (set_nextAudioStartTime 0) ;;
    modify (setStatus Listening)
  else ret tt.

Definition handleMessage (env : Env) (message : LiveServerMessage) : M unit :=
  takeFragments message ;;
  completeTurn env message ;;
  playAudio env message ;;
  interrupt message.

Definition stopSession : M unit :=
  modify (setStatus Idle) ;;
  s <- get ;;
  match liveSessionPromise s with
  | Some p =>
      match p with
      | Fulfilled => ret tt
      | Rejected => throw SessionRejected
      end ;;
      emit SessionClose ;;
      modify (set_liveSessionPromise None)
  | None => ret tt
  end ;;
  s <- get ;;
  match microphoneStream s with
  | Some stream =>
      for_of (getTracks stream) (fun track => emit (TrackStop track)) ;;
      modify (set_microphoneStream None)
  | None => ret tt
  end ;;
  s <- get ;;
  match scriptProcessorNode s with
  | Some n =>
      emit (NodeDisconnect n) ;;
      modify (set_scriptProcessorNode None)
  | None => ret tt
  end ;;
  s <- get ;;
  match inputAudioContext s with
  | Some ctx =>
      match state ctx with
      | Closed => ret tt
      | _ => emit (ContextClose ctx) ;; modify (set_inputAudioContext None)
      end
  | None => ret tt
  end ;;
  s <- get ;;
  match outputAudioContext s with
  | Some ctx =>
      match state ctx with
      | Closed => ret tt
      | _ => emit (ContextClose ctx) ;; modify (set_outputAudioContext None)
      end
  | None => ret tt
  end.

Definition handleError : M unit :=
  emit (ConsoleError "Session error:") ;;
  modify (setError (Some "An error occurred with the connection. Please try again."%string)) ;;
  modify (setStatus Error) ;;
  detached stopSession.

(** [status] is the value the closure captured. *)
Definition handleClose (captured : AssistantStatus) : M unit :=
  match captured with
  | Error => ret tt
  | _ => emit (ConsoleLog "Session closed.")
  end.

(** The [onopen] callback passed to [ai.live.connect]. *)
Definition onopen : M unit :=
  s <- get ;;
  match inputAudioContext s with
  | None => throw TypeError
  | Some ctx =>
      modify (set_scriptProcessorNode (Some (mkScriptProcessor 4096 1 1))) ;;
      modify (setStatus Listening)
  end.

(** The loop of [onaudioprocess], lines 185-188. *)
Definition floatTo16BitPCM (inputData : list spec_float) : list Z :=
  map (fun x => ToInt16 (binary64_mul x (binary64_of_Z 32768))) inputData.

Definition onaudioprocess (inputData : list spec_float) : M unit :=
  let int16 := floatTo16BitPCM inputData in
  let payload := encode (Uint8Array_of_Int16Array int16) in
  s <- get ;;
  match liveSessionPromise s with
  | Some Fulfilled => emit (SendRealtimeInput payload "audio/pcm;rate=16000")
  | _ => ret tt
  end.

Definition startSession (w : Platform) : M unit :=
  modify (setError None) ;;
  modify (setStatus Thinking) ;;
  try_catch
    (stream <- match getUserMedia w with
               | Some stream => ret stream
               | None => throw NotAllowedError
               end ;;
     modify (set_microphoneStream (Some stream)) ;;
     modify (set_inputAudioContext (Some (mkAudioContext INPUT_SAMPLE_RATE Running))) ;;
     modify (set_outputAudioContext (Some (mkAudioContext OUTPUT_SAMPLE_RATE Running))) ;;
     modify (set_nextAudioStartTime 0) ;;
     p <- match connect w with
          | Some p => ret p
          | None => throw ConnectError
          end ;;
     modify (set_liveSessionPromise (Some p)))
    (fun err =>
       emit (ConsoleError "Failed to start session:") ;;
       modify (setError
                 (Some "Could not access microphone. Please grant permission and try again."%string)) ;;
       modify (setStatus Error) ;;
       stopSession).

Definition toggleSession (w : Platform) : M unit :=
  s <- get ;;
  match status s with
  | Idle | Error => detached (startSession w)
  | _ => detached stopSession
  end.

(** *** The component as an event-driven machine *)

Inductive Event : Type :=
| OnClick (w : Platform)
| OnOpen
| OnMessage (env : Env) (message : LiveServerMessage)
| OnError
| OnClose (captured : AssistantStatus)
| OnEnded (source : AudioBufferSourceNode)
| OnAudioProcess (inputData : list spec_float).

Definition dispatch (ev : Event) : M unit :=
  match ev with
  | OnClick w => toggleSession w
  | OnOpen => onopen
  | OnMessage env message => handleMessage env message
  | OnError => handleError
  | OnClose captured => handleClose captured
  | OnEnded source => onended source
  | OnAudioProcess inputData => onaudioprocess inputData
  end.

(** An exception that escapes a callback is reported by the browser; the
    component goes on from the state the callback left. *)
Definition step (s : State) (ev : Event) : State := final (dispatch ev s).

Definition run (evs : list Event) (s : State) : State := fold_left step evs s.

Definition reachable (s : State) : Prop := exists evs, run evs initial = s.

(* ------------------------------------------------------------------ *)
(** ** Vocabulary for the properties *)

(** *** Message events of the wire shapes the service sends *)

Definition inputFragment (t : string) : LiveServerMessage :=
  mkServerMessage
    (Some (mkServerContent None (Some (mkTranscription (Some t))) false None false)).

Definition outputFragment (t : string) : LiveServerMessage :=
  mkServerMessage
    (Some (mkServerContent (Some (mkTranscription (Some t))) None false None false)).

Definition turnCompleteSignal : LiveServerMessage :=
  mkServerMessage (Some (mkServerContent None None true None false)).

Definition interruptedSignal : LiveServerMessage :=
  mkServerMessage (Some (mkServerContent None None false None true)).

(** One event carrying a fragment of each side. *)
Definition bothFragments (userText aiText : string) : LiveServerMessage :=
  mkServerMessage
    (Some (mkServerContent (Some (mkTranscription (Some aiText)))
                           (Some (mkTranscription (Some userText))) false None false)).

Definition audioPayload (b64 : string) : LiveServerMessage :=
  mkServerMessage
    (Some (mkServerContent None None false
             (Some (mkContent (Some [mkPart (Some (mkBlob (Some b64)))]))) false)).

(** An interruption signal on a message whose [modelTurn] has no
    [parts]. *)
Definition interruptedWithoutParts : LiveServerMessage :=
  mkServerMessage (Some (mkServerContent None None false (Some (mkContent None)) true)).

(** All ways of merging two event sequences that keep the order of
    each. *)
Inductive interleaved {A : Type} : list A -> list A -> list A -> Prop :=
| interleaved_nil : interleaved [] [] []
| interleaved_left x l r m : interleaved l r m -> interleaved (x :: l) r (x :: m)
| interleaved_right y l r m : interleaved l r m -> interleaved l (y :: r) (y :: m).

(** *** Transcription *)

(** The fragments of one side, put end to end. *)
Definition joined (fragments : list string) : string :=
  fold_right append EmptyString fragments.

(** The events delivering the assistant's fragments one by one. *)
Definition outputEvents (fragments : list (Env * string)) : list Event :=
  map (fun f => OnMessage (fst f) (outputFragment (snd f))) fragments.

(** The fragment a message carries on each side, as text. *)
Definition outputText (message : LiveServerMessage) : option (option string) :=
  option_map transcript (chain (serverContent message) outputTranscription).

Definition inputText (message : LiveServerMessage) : option (option string) :=
  option_map transcript (chain (serverContent message) inputTranscription).

(** Every fragment the event carries is at the end of its buffer once
    the event has been handled. *)
Definition every_fragment_appended
  (env : Env) (message : LiveServerMessage) (s : State) : Prop :=
  let s' := final (handleMessage env message s) in
  (forall t, inputText message = Some t ->
             userInputRef s' = append_js (userInputRef s) t) /\
  (forall t, outputText message = Some t ->
             aiOutputRef s' = append_js (aiOutputRef s) t).

(** The messages a turn-complete signal adds to the log for the given
    buffer contents. *)
Definition flushed (env : Env) (userBuffer aiBuffer : string) : list Message :=
  (if nonempty (trim userBuffer)
   then [mkMessage (dateNow env 0) User (trim userBuffer)] else [])
  ++
  (if nonempty (trim aiBuffer)
   then [mkMessage (dateNow env (if nonempty (trim userBuffer) then 1 else 0) + 1)
                   Ai (trim aiBuffer)]
   else []).

Definition ids (s : State) : list Z := map id (conversation s).

(** *** Playback schedule *)

(** One [source.start(startTime)] call: the clock reading the start time
    was computed against, the start time, and the buffer's duration. *)
Record Scheduled : Type := mkScheduled {
  clock : Q;
  startTime : Q;
  playLength : Q
}.

Definition scheduled_by (env : Env) (fx : list Effect) : list Scheduled :=
  flat_map (fun e =>
              match e with
              | SourceStart source when =>
                  [mkScheduled (currentTime env) when (duration (buffer source))]
              | _ => []
              end) fx.

(** The payloads scheduled while a sequence of message events is
    handled, in order. *)
Fixpoint schedule (evs : list (Env * LiveServerMessage)) (s : State) : list Scheduled :=
  match evs with
  | [] => []
  | (env, message) :: rest =>
      let o := handleMessage env message s in
      scheduled_by env (effects o) ++ schedule rest (final o)
  end.

(** No payload starts before the clock reading it was scheduled at, nor
    before the end of the payload scheduled before it, the end being
    the sum the code computes. *)
Fixpoint gapless (l : list Scheduled) : Prop :=
  match l with
  | [] => True
  | a :: rest =>
      (clock a <= startTime a)%Q /\
      match rest with
      | b :: _ => (add (startTime a) (playLength a) <= startTime b)%Q
      | [] => True
      end /\
      gapless rest
  end.

(** The state the first two blocks of [handleMessage] hand to the
    playback blocks. *)
Definition transcribed (env : Env) (message : LiveServerMessage) (s : State) : State :=
  final ((takeFragments message ;; completeTurn env message) s).

(** The handler gets through its audio block: the expression of line
    86 does not throw, and the payload, if the message carries one, can
    be decoded. *)
Definition audio_block_passes (message : LiveServerMessage) : Prop :=
  exists base64,
    base64Audio message = inr base64
    /\ forall b64,
         truthy base64 = Some b64 ->
         chain (decode b64) (fun bytes => decodeAudioData bytes OUTPUT_SAMPLE_RATE 1)
         <> None.

(** Exactly one message, the assistant's, is added to the log by the
    assistant's fragments followed by the turn-complete signal. *)
Definition logs_one_assistant_message
  (fragments : list (Env * string)) (e : Env) (s : State) : Prop :=
  exists m,
    conversation (run (outputEvents fragments ++ [OnMessage e turnCompleteSignal]) s)
    = conversation s ++ [m]
    /\ speaker m = Ai.

End App.

(** ** An instance of [./utils/audio] to run the callbacks on

    Every payload decodes to one second of audio. *)

Definition encode_latin1 (bytes : list Byte.byte) : string :=
  string_of_list_ascii (map Ascii.ascii_of_byte bytes).

Definition decode_any (b64 : string) : option (list Byte.byte) :=
  Some (map Ascii.byte_of_ascii (list_ascii_of_string b64)).

Definition decode_one_second (bytes : list Byte.byte) (rate channels : Z)
  : option AudioBuffer :=
  Some (mkAudioBuffer 1).

(** ** Binary64 addition as the instance of [add]

    A finite binary64 number as the rational it denotes, the binary64
    number nearest to a rational (exact on the rationals that are
    binary64 numbers), and the sum of two numbers rounded as binary64
    addition rounds it. *)

Definition Q_of_binary64 (x : spec_float) : Q :=
  match x with
  | S754_finite sgn m e =>
      let magnitude :=
        match e with
        | Zneg k => Zpos m # Pos.shiftl 1 (Npos k)
        | _ => inject_Z (Z.shiftl (Zpos m) e)
        end in
      Qred (if sgn then - magnitude else magnitude)
  | _ => 0
  end.

Definition binary64_of_Q (q : Q) : spec_float :=
  SFdiv 53 1024 (binary64_of_Z (Qnum q)) (binary64_of_Z (Zpos (Qden q))).

Definition binary64_add (a b : Q) : Q :=
  Q_of_binary64 (SFadd 53 1024 (binary64_of_Q a) (binary64_of_Q b)).

(** The binary64 number nearest to one tenth. *)
Definition one_tenth : Q := 3602879701896397 # 36028797018963968.

(** Every payload decodes to a quarter of a second of audio. *)
Definition decode_quarter_second (bytes : list Byte.byte) (rate channels : Z)
  : option AudioBuffer :=
  Some (mkAudioBuffer (1 # 4)).

(** A platform on which the microphone is granted and the session
    opens, and one on which the microphone is refused. *)
Definition granted : Platform :=
  mkPlatform (Some (mkMediaStream [0%nat])) (Some Fulfilled).

Definition denied : Platform := mkPlatform None (Some Fulfilled).

(** The state of a session that has just opened. *)
Definition opened : State :=
  run encode_latin1 decode_any decode_one_second binary64_add [OnClick granted; OnOpen] initial.

Definition at_time (t : Q) (ms : Z) : Env := mkEnv t (fun _ => ms).

(** Two turns completed one millisecond apart. *)
Definition two_quick_turns : list Event :=
  [ OnMessage (at_time 0 1000) (inputFragment "Hi");
    OnMessage (at_time 0 1000) (outputFragment "Hello");
    OnMessage (at_time 0 1000) turnCompleteSignal;
    OnMessage (at_time 0 1001) (inputFragment "Bye");
    OnMessage (at_time 0 1001) turnCompleteSignal ].

(** Two payloads of one answer, the second arriving while the first
    plays. *)
Definition buffered_answer : list (Env * LiveServerMessage) :=
  [ (at_time 10 0, audioPayload "AAAA");
    (at_time (81 # 8) 0, audioPayload "AAAA") ].

(** An open session with one payload playing. *)
Definition playing : State :=
  run encode_latin1 decode_any decode_one_second binary64_add
      [OnMessage (at_time 10 0) (audioPayload "AAAA")] opened.

(** The largest 32-bit float below [1.0], [1 - 2^-24]. *)
Definition below_full_scale : spec_float :=
  SFpred 24 128 (binary_normalize 24 128 1 0 false).

(** Two payloads buffered ahead of the clock, an interruption, and the
    first payload of the next answer. *)
Definition interrupted_answer : list (Env * LiveServerMessage) :=
  [ (at_time 10 0, audioPayload "AAAA");
    (at_time (81 # 8) 0, audioPayload "AAAA");
    (at_time (21 # 2) 0, interruptedSignal);
    (at_time (85 # 8) 0, audioPayload "AAAA") ].

(* ------------------------------------------------------------------ *)
(** ** What the component renders from the status

    [getStatusInfo] of [StatusIndicator] (lines 12-25) as the pair of the
    text and the colour class, the [animate-ping] test of line 32, and
    the label of the button (line 266). *)

Definition getStatusInfo (status : AssistantStatus) : string * string :=
  match status with
  | Listening => ("Listening...", "bg-green-500")
  | Speaking | Thinking => ("AI is responding...", "bg-blue-500")
  | Error => ("Error", "bg-red-500")
  | Idle => ("Ready to help", "bg-gray-500")
  end%string.

Definition animated (status : AssistantStatus) : bool :=
  match status with
  | Listening | Speaking => true
  | _ => false
  end.

Definition buttonLabel (status : AssistantStatus) : string :=
  match status with
  | Idle | Error => "Start Session"
  | _ => "Stop Session"
  end%string.

(** What [stopSession] does to an audio context ref: a context that is
    not closed is closed and the ref cleared; a closed one stays. *)
Definition after_close (ref : option AudioContext) : option AudioContext :=
  match ref with
  | Some ctx => match state ctx with Closed => Some ctx | _ => None end
  | None => None
  end.

Definition close_calls (ref : option AudioContext) : list Effect :=
  match ref with
  | Some ctx => match state ctx with Closed => [] | _ => [ContextClose ctx] end
  | None => []
  end.

(** Expose the record built by a chain of setters. *)
Ltac setters :=
  unfold setStatus, setConversation, setError, set_liveSessionPromise,
    set_inputAudioContext, set_outputAudioContext, set_microphoneStream,
    set_scriptProcessorNode, set_userInputRef, set_aiOutputRef,
    set_nextAudioStartTime, set_audioSources, set_created;
  cbn [status conversation error liveSessionPromise inputAudioContext
       outputAudioContext microphoneStream scriptProcessorNode userInputRef
       aiOutputRef nextAudioStartTime audioSources created].

(* ------------------------------------------------------------------ *)
(** * Properties *)

Unset Implicit Arguments.

(** ** Computations *)

Lemma prepend_nil A (o : Outcome A) : prepend [] o = o.
Proof. destruct o; reflexivity. Qed.

Lemma final_prepend A fx (o : Outcome A) : final (prepend fx o) = final o.
Proof. destruct o; reflexivity. Qed.

Lemma effects_prepend A fx (o : Outcome A) : effects (prepend fx o) = fx ++ effects o.
Proof. destruct o; reflexivity. Qed.

Lemma returned_prepend A fx (o : Outcome A) : returned (prepend fx o) = returned o.
Proof. destruct o; reflexivity. Qed.

(** A first step that returns silently hands over to the rest. *)
Lemma bind_silent A B (m : M A) (k : A -> M B) s a s1 :
  m s = Returns a s1 [] -> bind m k s = k a s1.
Proof.
  intros Hm. unfold bind. rewrite Hm. apply prepend_nil.
Qed.

Create Rewrite HintDb outcome.
Lemma try_catch_throws A (body : M A) handler s e s1 fx1 :
  body s = Throws e s1 fx1 ->
  try_catch body handler s = prepend fx1 (handler e s1).
Proof.
  intros Hbody. unfold try_catch. rewrite Hbody. reflexivity.
Qed.

(** A loop whose body is one silent state change and one emitted call. *)
Lemma for_of_steps A (body : A -> M unit) (f : A -> State -> State) (g : A -> Effect) l :
  (forall x s, body x s = Returns tt (f x s) [g x]) ->
  forall s,
    for_of l body s = Returns tt (fold_left (fun s x => f x s) l s) (map g l).
Proof.
  intros Hbody. induction l as [|x l IH]; intros s; cbn [for_of fold_left map].
  - reflexivity.
  - unfold bind. rewrite Hbody, IH. reflexivity.
Qed.

#[local] Hint Rewrite prepend_nil final_prepend effects_prepend returned_prepend : outcome.

(** ** JavaScript primitives *)

Lemma Math_max_right a b : (b <= Math_max a b)%Q.
Proof.
  unfold Math_max. destruct (Qle_bool a b) eqn:E.
  - apply Qle_refl.
  - apply Qlt_le_weak, Qnot_le_lt. intros H.
    apply Qle_bool_iff in H. congruence.
Qed.

Lemma Math_max_left a b : (a <= Math_max a b)%Q.
Proof.
  unfold Math_max. destruct (Qle_bool a b) eqn:E.
  - now apply Qle_bool_iff.
  - apply Qle_refl.
Qed.

Lemma ToInt16_range x : (-32768 <= ToInt16 x <= 32767)%Z.
Proof.
  unfold ToInt16.
  pose proof (Z.mod_pos_bound (truncate x) 65536 eq_refl) as B.
  destruct (Z.geb_spec (truncate x mod 65536) 32768); lia.
Qed.

Lemma ToInt16_in_range x :
  (-32768 <= truncate x <= 32767)%Z -> ToInt16 x = truncate x.
Proof.
  intros Hx. unfold ToInt16.
  destruct (Z.leb_spec 0 (truncate x)) as [Hpos|Hneg].
  - rewrite Z.mod_small by lia.
    destruct (Z.geb_spec (truncate x) 32768); lia.
  - replace (truncate x mod 65536)%Z with (truncate x + 65536)%Z.
    + destruct (Z.geb_spec (truncate x + 65536) 32768); lia.
    + apply Z.mod_unique with (q := (-1)%Z); lia.
Qed.

(** Deleting, one after the other, every element of [l] from a set all
    of whose elements are in [l] leaves the empty set. *)
Lemma delete_each_empties l :
  forall acc,
    (forall y, In y acc -> exists x, In x l /\ same_node x y = true) ->
    fold_left (fun acc x => Set_delete x acc) l acc = [].
Proof.
  induction l as [|x l IH]; intros acc Hacc; simpl.
  - destruct acc as [|y acc]; [reflexivity|].
    destruct (Hacc y (or_introl eq_refl)) as [x [[] _]].
  - apply IH. intros y Hy. unfold Set_delete in Hy.
    apply filter_In in Hy. destruct Hy as [Hy Hxy].
    destruct (Hacc y Hy) as [x0 [[<-|Hin] Hsame]].
    + rewrite Hsame in Hxy. discriminate.
    + exists x0. split; assumption.
Qed.

Lemma same_node_refl x : same_node x x = true.
Proof. apply Nat.eqb_refl. Qed.

(** ** The blocks of [handleMessage] *)

Section Properties.

Variable encode : list Byte.byte -> string.
Variable decode : string -> option (list Byte.byte).
Variable decodeAudioData : list Byte.byte -> Z -> Z -> option AudioBuffer.
Variable add : Q -> Q -> Q.

Lemma takeFragments_returns message s :
  takeFragments message s =
  Returns tt
    (set_aiOutputRef
       (match outputText message with
        | Some t => append_js (aiOutputRef s) t
        | None => aiOutputRef s
        end)
       (set_userInputRef
          (match outputText message, inputText message with
           | None, Some t => append_js (userInputRef s) t
           | _, _ => userInputRef s
           end) s)) [].
Proof.
  unfold takeFragments, outputText, inputText.
  destruct s.
  destruct (chain (serverContent message) outputTranscription);
    [reflexivity|].
  destruct (chain (serverContent message) inputTranscription); reflexivity.
Qed.

Lemma completeTurn_returns env message s :
  completeTurn env message s =
  Returns tt
    (if flag turnComplete message
     then setStatus Listening
            (set_aiOutputRef EmptyString
               (set_userInputRef EmptyString
                  (setConversation
                     (fun prev => prev ++ flushed env (userInputRef s) (aiOutputRef s))
                     s)))
     else s) [].
Proof.
  unfold completeTurn, flushed.
  destruct (flag turnComplete message); [|reflexivity].
  destruct s as [st conv err p ic oc mic sp u a t srcs n].
  unfold bind, get, modify, ret; cbn.
  destruct (nonempty (trim u)), (nonempty (trim a)); cbn;
    setters; rewrite ?app_nil_r, <- ?app_assoc; reflexivity.
Qed.

(** The loop of the interruption block deletes its way through a
    snapshot of the set. *)
Lemma delete_each_state l :
  forall s,
    fold_left (fun s x => set_audioSources (Set_delete x (audioSources s)) s) l s
    = set_audioSources (fold_left (fun acc x => Set_delete x acc) l (audioSources s)) s.
Proof.
  induction l as [|x l IH]; intros s; cbn [fold_left].
  - destruct s; reflexivity.
  - rewrite IH. destruct s; reflexivity.
Qed.

Lemma scheduled_by_stops env l : scheduled_by env (map SourceStop l) = [].
Proof. induction l; [reflexivity|assumption]. Qed.

Lemma interrupt_returns message s :
  interrupt message s =
  if flag interrupted message
  then Returns tt
         (setStatus Listening (set_nextAudioStartTime 0 (set_audioSources [] s)))
         (map SourceStop (audioSources s))
  else Returns tt s [].
Proof.
  unfold interrupt.
  destruct (flag interrupted message); [|reflexivity].
  unfold bind at 1. unfold get at 1. cbn [prepend].
  unfold bind at 1.
  rewrite for_of_steps
    with (f := fun x s => set_audioSources (Set_delete x (audioSources s)) s)
         (g := SourceStop) by reflexivity.
  rewrite delete_each_state, delete_each_empties.
  - destruct s. cbn. setters. now rewrite app_nil_r.
  - intros y Hy. exists y. split; [assumption|apply same_node_refl].
Qed.

Lemma transcribed_eq env message s :
  transcribed env message s =
  let s1 :=
    set_aiOutputRef
      (match outputText message with
       | Some t => append_js (aiOutputRef s) t
       | None => aiOutputRef s
       end)
      (set_userInputRef
         (match outputText message, inputText message with
          | None, Some t => append_js (userInputRef s) t
          | _, _ => userInputRef s
          end) s) in
  if flag turnComplete message
  then setStatus Listening
         (set_aiOutputRef EmptyString
            (set_userInputRef EmptyString
               (setConversation
                  (fun prev => prev ++ flushed env (userInputRef s1) (aiOutputRef s1))
                  s1)))
  else s1.
Proof.
  unfold transcribed.
  erewrite bind_silent by apply takeFragments_returns.
  cbv beta. rewrite completeTurn_returns. reflexivity.
Qed.

Lemma handleMessage_playback env message s :
  handleMessage decode decodeAudioData add env message s =
  (playAudio decode decodeAudioData add env message ;; interrupt message)
    (transcribed env message s).
Proof.
  unfold handleMessage. rewrite transcribed_eq. cbv zeta.
  erewrite bind_silent by apply takeFragments_returns.
  erewrite bind_silent by apply completeTurn_returns.
  reflexivity.
Qed.

(** The playback block, outcome by outcome. *)
Lemma playAudio_eq env message s :
  playAudio decode decodeAudioData add env message s =
  let start := Math_max (nextAudioStartTime s) (currentTime env) in
  match base64Audio message with
  | inl e => Throws e s []
  | inr base64 =>
      match truthy base64, outputAudioContext s with
      | Some b64, Some _ =>
          match chain (decode b64)
                      (fun bytes => decodeAudioData bytes OUTPUT_SAMPLE_RATE 1) with
          | Some audioBuffer =>
              let source := mkSourceNode (created s) audioBuffer in
              Returns tt
                (set_audioSources (Set_add source (audioSources s))
                   (set_nextAudioStartTime (add start (duration audioBuffer))
                      (set_created (S (created s)) (setStatus Speaking s))))
                [SourceStart source start]
          | None =>
              Throws DecodeError (set_nextAudioStartTime start (setStatus Speaking s)) []
          end
      | _, _ => Returns tt s []
      end
  end.
Proof.
  unfold playAudio. cbv zeta.
  destruct s as [st conv err p ic oc mic sp u a t srcs n].
  unfold bind at 1.
  destruct (base64Audio message) as [e|base64]; [reflexivity|].
  unfold ret at 1. cbn [prepend]. rewrite prepend_nil.
  unfold bind at 1. unfold get at 1. cbn [prepend outputAudioContext].
  rewrite prepend_nil.
  destruct (truthy base64) as [b64|]; [|reflexivity].
  destruct oc as [ctx|]; [|reflexivity].
  destruct (chain (decode b64) (fun bytes => decodeAudioData bytes OUTPUT_SAMPLE_RATE 1));
    reflexivity.
Qed.

(** The ways the playback block can go: nothing to play, an exception
    (line 86 throws, or the payload does not decode), a payload
    scheduled. *)
Lemma playAudio_cases env message s :
  let o := playAudio decode decodeAudioData add env message s in
  let start := Math_max (nextAudioStartTime s) (currentTime env) in
  o = Returns tt s []
  \/ (o = Throws TypeError s []
      /\ ~ audio_block_passes decode decodeAudioData message)
  \/ (o = Throws DecodeError
            (set_nextAudioStartTime start (setStatus Speaking s)) []
      /\ ~ audio_block_passes decode decodeAudioData message)
  \/ (exists audioBuffer,
        let source := mkSourceNode (created s) audioBuffer in
        o = Returns tt
              (set_audioSources (Set_add source (audioSources s))
                 (set_nextAudioStartTime (add start (duration audioBuffer))
                    (set_created (S (created s)) (setStatus Speaking s))))
              [SourceStart source start]).
Proof.
  cbv zeta. rewrite playAudio_eq. cbv zeta. unfold audio_block_passes.
  destruct (base64Audio message) as [e|base64] eqn:Hb.
  - right. left.
    assert (e = TypeError) as ->.
    { revert Hb. unfold base64Audio.
      destruct (chain (serverContent message) modelTurn) as [content|];
        [destruct (parts content)|]; congruence. }
    split; [reflexivity|]. intros [v [Hv _]]. discriminate.
  - destruct (truthy base64) as [b64|] eqn:Ht; [|left; reflexivity].
    destruct (outputAudioContext s) as [ctx|]; [|left; reflexivity].
    destruct (chain (decode b64) (fun bytes => decodeAudioData bytes OUTPUT_SAMPLE_RATE 1))
      as [audioBuffer|] eqn:Hdec.
    + right. right. right. exists audioBuffer. reflexivity.
    + right. right. left. split; [reflexivity|].
      intros [v [Hv H]]. injection Hv as <-. apply (H b64 Ht). assumption.
Qed.

(** The playback blocks leave the log and the buffers alone, whether or
    not the payload decodes. *)
Lemma playback_frame env message s :
  let o := (playAudio decode decodeAudioData add env message ;; interrupt message) s in
  conversation (final o) = conversation s
  /\ userInputRef (final o) = userInputRef s
  /\ aiOutputRef (final o) = aiOutputRef s.
Proof.
  cbv zeta. unfold bind.
  destruct (playAudio_cases env message s) as [E|[[E _]|[[E _]|[b E]]]];
    cbv zeta in E; rewrite E; clear E;
    rewrite ?final_prepend, ?interrupt_returns;
    destruct (flag interrupted message); destruct s; repeat split; reflexivity.
Qed.

(** ** Transcription and the conversation log *)

(** C3 (amended): for every message event, the assistant-side fragment
    it carries is appended to the assistant buffer, and the user-side
    fragment is appended to the user buffer when the event carries no
    assistant-side fragment (the [else if] of lines 64-68 skips it
    otherwise); when the event also completes the turn the buffers so
    extended are flushed into the log and cleared. *)
Theorem fragments_accumulate env message s :
  let o := handleMessage decode decodeAudioData add env message s in
  let ai := match outputText message with
            | Some t => append_js (aiOutputRef s) t
            | None => aiOutputRef s
            end in
  let user := match outputText message, inputText message with
              | None, Some t => append_js (userInputRef s) t
              | _, _ => userInputRef s
              end in
  if flag turnComplete message
  then conversation (final o) = conversation s ++ flushed env user ai
       /\ userInputRef (final o) = EmptyString
       /\ aiOutputRef (final o) = EmptyString
  else conversation (final o) = conversation s
       /\ userInputRef (final o) = user
       /\ aiOutputRef (final o) = ai.
Proof.
  cbv zeta. rewrite handleMessage_playback.
  destruct (playback_frame env message (transcribed env message s)) as [Hc [Hu Ha]].
  rewrite Hc, Hu, Ha, transcribed_eq. cbv zeta.
  destruct (flag turnComplete message); destruct s; repeat split; reflexivity.
Qed.

Lemma append_assoc (a b c : string) : ((a ++ b) ++ c = a ++ (b ++ c))%string.
Proof. induction a as [|x a IH]; cbn; [reflexivity|now rewrite IH]. Qed.

Lemma append_empty_r (a : string) : (a ++ EmptyString)%string = a.
Proof. induction a as [|x a IH]; cbn; [reflexivity|now rewrite IH]. Qed.

Lemma step_inputFragment env t s :
  step encode decode decodeAudioData add s (OnMessage env (inputFragment t))
  = set_userInputRef (userInputRef s ++ t) s.
Proof. destruct s. reflexivity. Qed.

Lemma step_outputFragment env t s :
  step encode decode decodeAudioData add s (OnMessage env (outputFragment t))
  = set_aiOutputRef (aiOutputRef s ++ t) s.
Proof. destruct s. reflexivity. Qed.

Lemma step_turnComplete env s :
  let s' := step encode decode decodeAudioData add s (OnMessage env turnCompleteSignal) in
  conversation s' = conversation s ++ flushed env (userInputRef s) (aiOutputRef s)
  /\ userInputRef s' = EmptyString
  /\ aiOutputRef s' = EmptyString.
Proof.
  cbv zeta. unfold step, dispatch. rewrite handleMessage_playback.
  destruct (playback_frame env turnCompleteSignal (transcribed env turnCompleteSignal s))
    as [Hc [Hu Ha]].
  rewrite Hc, Hu, Ha, transcribed_eq.
  destruct s; repeat split; reflexivity.
Qed.

Lemma run_app evs1 evs2 s :
  run encode decode decodeAudioData add (evs1 ++ evs2) s
  = run encode decode decodeAudioData add evs2 (run encode decode decodeAudioData add evs1 s).
Proof. apply fold_left_app. Qed.

Lemma run_outputEvents fragments :
  forall s,
    run encode decode decodeAudioData add (outputEvents fragments) s
    = set_aiOutputRef (aiOutputRef s ++ joined (map snd fragments)) s.
Proof.
  induction fragments as [|[env t] fragments IH]; intros s.
  - cbn. rewrite append_empty_r. destruct s; reflexivity.
  - cbn [outputEvents map run fold_left fst snd joined fold_right].
    rewrite step_outputFragment.
    change (fold_left (step encode decode decodeAudioData add)
              (map (fun f => OnMessage (fst f) (outputFragment (snd f))) fragments))
      with (run encode decode decodeAudioData add (outputEvents fragments)).
    rewrite IH. destruct s. setters. rewrite append_assoc. reflexivity.
Qed.

(** C7: from empty buffers, the user fragments "Hel", "lo" and the
    assistant fragments "Hi ", "there", delivered as separate events in
    any order that keeps the order of each side, followed by a
    turn-complete signal, add exactly the two messages user "Hello" and
    then assistant "Hi there" to the log, and leave both buffers empty. *)
Theorem hello_turn_logged s (e1 e2 e3 e4 e5 : Env) evs :
  userInputRef s = EmptyString ->
  aiOutputRef s = EmptyString ->
  interleaved
    [OnMessage e1 (inputFragment "Hel"); OnMessage e2 (inputFragment "lo")]
    [OnMessage e3 (outputFragment "Hi "); OnMessage e4 (outputFragment "there")]
    evs ->
  let s' := run encode decode decodeAudioData add
                (evs ++ [OnMessage e5 turnCompleteSignal]) s in
  conversation s'
  = conversation s ++ [mkMessage (dateNow e5 0) User "Hello";
                       mkMessage (dateNow e5 1 + 1) Ai "Hi there"]
  /\ userInputRef s' = EmptyString
  /\ aiOutputRef s' = EmptyString.
Proof.
  intros Hu Ha Hevs. cbv zeta. rewrite run_app.
  cbn [run fold_left].
  match goal with
  | |- context [step _ _ _ _ ?s0 (OnMessage e5 turnCompleteSignal)] =>
      destruct (step_turnComplete e5 s0) as [Hc [Hu' Ha']];
      assert (Hs0 : conversation s0 = conversation s
                    /\ userInputRef s0 = "Hello"%string
                    /\ aiOutputRef s0 = "Hi there"%string)
  end.
  { repeat match goal with
           | H : interleaved _ _ _ |- _ => inversion H; clear H; subst
           end;
      cbn [fold_left]; rewrite ?step_inputFragment, ?step_outputFragment;
      destruct s; cbn in Hu, Ha; subst; repeat split; reflexivity. }
  destruct Hs0 as [Hc0 [Hu0 Ha0]].
  rewrite Hc, Hu', Ha', Hc0, Hu0, Ha0. repeat split; reflexivity.
Qed.

(** C8 (amended): from empty buffers, when only assistant fragments
    arrive before the turn-complete signal and their text is not blank
    once trimmed, the signal adds exactly one message to the log, the
    assistant's, and no user message; when the text is blank the log
    stays as it was; both buffers are empty afterwards. *)
Theorem assistant_only_turn s (fragments : list (Env * string)) (e : Env) :
  userInputRef s = EmptyString ->
  aiOutputRef s = EmptyString ->
  let spoken := trim (joined (map snd fragments)) in
  let s' := run encode decode decodeAudioData add
                (outputEvents fragments ++ [OnMessage e turnCompleteSignal]) s in
  (spoken <> EmptyString ->
   conversation s' = conversation s ++ [mkMessage (dateNow e 0 + 1) Ai spoken])
  /\ (spoken = EmptyString -> conversation s' = conversation s)
  /\ userInputRef s' = EmptyString
  /\ aiOutputRef s' = EmptyString.
Proof.
  intros Hu Ha. cbv zeta. rewrite run_app, run_outputEvents.
  cbn [run fold_left].
  match goal with
  | |- context [step _ _ _ _ ?s0 (OnMessage e turnCompleteSignal)] =>
      destruct (step_turnComplete e s0) as [Hc [Hu' Ha']]
  end.
  rewrite Hc, Hu', Ha'.
  destruct s; cbn in Hu, Ha; subst. setters.
  unfold flushed. cbn [append].
  destruct (trim (joined (map snd fragments))) as [|c rest];
    repeat split; try congruence; intros _; cbn; try apply app_nil_r; reflexivity.
Qed.

(** ** Playback *)

(** C5: whatever the state, processing an interruption signal (the
    block of lines 108-115) leaves the set of active sources empty, the
    cursor at zero and the status [listening]; and so does the whole
    handler on a message carrying the signal, provided it gets to that
    block, that is, line 86 does not throw and the audio payload of the
    message, if it has one, decodes. *)
Theorem interruption_resets_playback env message s :
  flag interrupted message = true ->
  (let o := interrupt message s in
   returned o = true
   /\ audioSources (final o) = []
   /\ nextAudioStartTime (final o) = 0
   /\ status (final o) = Listening)
  /\ (audio_block_passes decode decodeAudioData message ->
      let o := handleMessage decode decodeAudioData add env message s in
      returned o = true
      /\ audioSources (final o) = []
      /\ nextAudioStartTime (final o) = 0
      /\ status (final o) = Listening).
Proof.
  intros Hsig. split.
  - cbv zeta. rewrite interrupt_returns, Hsig. repeat split.
  - intros Hpass. cbv zeta. rewrite handleMessage_playback.
    unfold bind.
    destruct (playAudio_cases env message (transcribed env message s))
      as [E|[[_ Hno]|[[_ Hno]|[b E]]]]; [| contradiction | contradiction |];
      cbv zeta in E; rewrite E; clear E;
      rewrite returned_prepend, final_prepend, interrupt_returns, Hsig;
      repeat split.
Qed.

(** The handler stops short of the interruption block when line 86
    throws: the signal of such a message is not processed. *)
Lemma interruption_without_parts_not_processed env s :
  let o := handleMessage decode decodeAudioData add env interruptedWithoutParts s in
  returned o = false
  /\ audioSources (final o) = audioSources s
  /\ nextAudioStartTime (final o) = nextAudioStartTime s.
Proof.
  destruct s. repeat split.
Qed.

Lemma transcribed_cursor env message s :
  nextAudioStartTime (transcribed env message s) = nextAudioStartTime s.
Proof.
  rewrite transcribed_eq. cbv zeta.
  destruct (flag turnComplete message); destruct s; reflexivity.
Qed.

Lemma scheduled_by_start env source t fx :
  scheduled_by env (SourceStart source t :: fx)
  = mkScheduled (currentTime env) t (duration (buffer source)) :: scheduled_by env fx.
Proof. reflexivity. Qed.

(** What one message schedules, interruption or not: nothing, or one
    payload at [max(cursor, clock)]. *)
Lemma handleMessage_starts env message s :
  let o := handleMessage decode decodeAudioData add env message s in
  scheduled_by env (effects o) = []
  \/ exists d,
       scheduled_by env (effects o)
       = [mkScheduled (currentTime env)
                      (Math_max (nextAudioStartTime s) (currentTime env)) d].
Proof.
  cbv zeta. rewrite handleMessage_playback.
  pose proof (transcribed_cursor env message s) as Hcur.
  unfold bind.
  destruct (playAudio_cases env message (transcribed env message s))
    as [E|[[E _]|[[E _]|[b E]]]];
    cbv zeta in E; rewrite E; clear E;
    rewrite ?effects_prepend, ?interrupt_returns;
    try (left; reflexivity).
  - left. destruct (flag interrupted message); cbn [effects app];
      [apply scheduled_by_stops|reflexivity].
  - right. exists (duration b). rewrite Hcur.
    destruct (flag interrupted message); cbn [effects app].
    + rewrite scheduled_by_start, scheduled_by_stops. reflexivity.
    + reflexivity.
Qed.

(** One message without interruption: either nothing is scheduled and
    the cursor does not move back, or one payload is scheduled at
    [max(cursor, clock)] and the cursor moves to its end. *)
Lemma handleMessage_schedules env message s :
  flag interrupted message = false ->
  let o := handleMessage decode decodeAudioData add env message s in
  let start := Math_max (nextAudioStartTime s) (currentTime env) in
  (scheduled_by env (effects o) = []
   /\ (nextAudioStartTime s <= nextAudioStartTime (final o))%Q)
  \/ (exists d,
        scheduled_by env (effects o) = [mkScheduled (currentTime env) start d]
        /\ nextAudioStartTime (final o) = add start d).
Proof.
  intros Hsig. cbv zeta. rewrite handleMessage_playback.
  unfold bind.
  pose proof (transcribed_cursor env message s) as Hcur.
  destruct (playAudio_cases env message (transcribed env message s))
    as [E|[[E _]|[[E _]|[b E]]]];
    cbv zeta in E; rewrite E; clear E;
    rewrite ?final_prepend, ?effects_prepend, ?interrupt_returns, ?Hsig;
    rewrite <- Hcur.
  - left. split; [reflexivity|apply Qle_refl].
  - left. split; [reflexivity|apply Qle_refl].
  - left. split; [reflexivity|].
    destruct (transcribed env message s); cbn. apply Math_max_left.
  - right. exists (duration b). split; [reflexivity|].
    destruct (transcribed env message s); reflexivity.
Qed.

(** No payload is ever given a start time before the clock reading of
    its message. *)
Lemma schedule_never_in_the_past evs :
  forall s,
    Forall (fun a => (clock a <= startTime a)%Q)
           (schedule decode decodeAudioData add evs s).
Proof.
  induction evs as [|[env message] evs IH]; intros s; cbn [schedule].
  - constructor.
  - apply Forall_app. split; [|apply IH].
    destruct (handleMessage_starts env message s) as [E|[d E]];
      cbv zeta in E; rewrite E; repeat constructor.
    cbn [clock startTime]. apply Math_max_right.
Qed.

(** A stretch of messages in which only the last may carry an
    interruption signal: the payloads are chained, and the first of them
    does not start before the cursor the stretch began with. *)
Lemma schedule_gapless front e m :
  forall s,
    (forall env message, In (env, message) front -> flag interrupted message = false) ->
    gapless add (schedule decode decodeAudioData add (front ++ [(e, m)]) s)
    /\ (forall b rest,
          schedule decode decodeAudioData add (front ++ [(e, m)]) s = b :: rest ->
          (nextAudioStartTime s <= startTime b)%Q).
Proof.
  induction front as [|[env message] front IH]; intros s Hfront.
  - cbn [app schedule]. rewrite app_nil_r.
    destruct (handleMessage_starts e m s) as [E|[d E]]; cbv zeta in E; rewrite E.
    + split; [exact I|discriminate].
    + split.
      * cbn [gapless clock startTime]. repeat split. apply Math_max_right.
      * intros b rest Hb. injection Hb as <- _. cbn [startTime].
        apply Math_max_left.
  - assert (Hsig : flag interrupted message = false)
      by (apply (Hfront env); left; reflexivity).
    assert (Hrest : forall env' message',
               In (env', message') front -> flag interrupted message' = false)
      by (intros env' message' Hin; apply (Hfront env'); right; assumption).
    cbn [app schedule].
    destruct (IH (final (handleMessage decode decodeAudioData add env message s)) Hrest)
      as [Hgap Hhead].
    destruct (handleMessage_schedules env message s Hsig) as [[E Hle]|[d [E Hcur]]];
      cbv zeta in E; rewrite E.
    + cbn [app]. split; [assumption|].
      intros b rest Hb. eapply Qle_trans; [exact Hle|]. eapply Hhead; eassumption.
    + cbn [app]. split.
      * cbn [gapless clock startTime playLength]. split; [apply Math_max_right|].
        split; [|assumption].
        destruct (schedule decode decodeAudioData add (front ++ [(e, m)]) _)
          as [|b rest] eqn:Hsched; [exact I|].
        rewrite <- Hcur. eapply Hhead; reflexivity.
      * intros b rest Hb. injection Hb as <- _. cbn [startTime].
        apply Math_max_left.
Qed.

(** C4 (amended): for every sequence of message events, each scheduled
    payload's start time is at least the output clock read when it was
    computed; and over every stretch of messages in which none before
    the last carries an interruption signal (whatever the state the
    stretch begins in), each payload's start time is also at least the
    previous payload's start time plus that payload's duration, the sum
    being the one the code computes. *)
Theorem payload_start_times_ordered evs s :
  Forall (fun a => (clock a <= startTime a)%Q)
         (schedule decode decodeAudioData add evs s)
  /\ (forall front e m,
         evs = front ++ [(e, m)] ->
         (forall env message,
             In (env, message) front -> flag interrupted message = false) ->
         gapless add (schedule decode decodeAudioData add evs s)).
Proof.
  split; [apply schedule_never_in_the_past|].
  intros front e m -> Hfront. apply schedule_gapless. assumption.
Qed.

(** ** Session life cycle *)

Lemma stop_tracks_returns l s :
  for_of l (fun track => emit (TrackStop track)) s = Returns tt s (map TrackStop l).
Proof.
  rewrite for_of_steps with (f := fun _ s => s) (g := TrackStop) by reflexivity.
  f_equal. induction l; [reflexivity|assumption].
Qed.

(** Teardown always ends with status [idle] and with the error message
    it found, also when it stops short on a rejected session promise. *)
Lemma stopSession_status_error s :
  status (final (stopSession s)) = Idle
  /\ error (final (stopSession s)) = error s.
Proof.
  destruct s as [st conv err p ic oc mic sp u a t srcs n].
  unfold stopSession.
  unfold bind at 1. unfold modify at 1. cbn [prepend]. rewrite final_prepend.
  unfold bind at 1. unfold get at 1. cbn [prepend]. rewrite final_prepend.
  setters.
  destruct p as [[|]|]; [| split; reflexivity |];
    (destruct mic as [stream|];
     [ unfold bind; cbn [get modify emit ret prepend liveSessionPromise microphoneStream];
       setters; rewrite stop_tracks_returns
     | unfold bind; cbn [get modify emit ret prepend liveSessionPromise microphoneStream];
       setters ]);
    destruct sp as [n0|], ic as [[r1 [| |]]|], oc as [[r2 [| |]]|];
    split; reflexivity.
Qed.

(** C1 (as the code runs): after a start attempt that fails, the error
    message is recorded, and the status is [idle]: the teardown the
    handler invokes sets it after the handler has set [error]. *)
Theorem failed_start_ends_idle w s :
  getUserMedia w = None \/ connect w = None ->
  let o := startSession w s in
  error (final o)
  = Some "Could not access microphone. Please grant permission and try again."%string
  /\ status (final o) = Idle.
Proof.
  intros Hfail. cbv zeta. unfold startSession.
  assert (Hhandler : forall s0,
             let o := (emit (ConsoleError "Failed to start session:") ;;
                       modify (setError
                         (Some "Could not access microphone. Please grant permission and try again."%string)) ;;
                       modify (setStatus Error) ;;
                       stopSession) s0 in
             error (final o)
             = Some "Could not access microphone. Please grant permission and try again."%string
             /\ status (final o) = Idle).
  { intros s0. cbv zeta.
    unfold bind, emit, modify. cbn [prepend]. rewrite !final_prepend.
    destruct (stopSession_status_error
                (setStatus Error
                   (setError
                      (Some "Could not access microphone. Please grant permission and try again."%string)
                      s0))) as [Hst Herr].
    rewrite Hst, Herr. destruct s0; split; reflexivity. }
  erewrite !bind_silent by reflexivity.
  destruct w as [[stream|] [p|]]; cbn in Hfail;
    [ destruct Hfail; discriminate | | | ];
    (erewrite try_catch_throws by reflexivity;
     rewrite !final_prepend; apply Hhandler).
Qed.

(** A session promise that rejects is not awaited by [startSession]:
    the [catch] block does not run, no message is recorded and the
    status stays [thinking]. *)
Lemma rejected_session_goes_unnoticed stream s :
  let o := startSession (mkPlatform (Some stream) (Some Rejected)) s in
  returned o = true /\ error (final o) = None /\ status (final o) = Thinking.
Proof.
  destruct s. repeat split.
Qed.

(** Teardown with no resource held: nothing to release, nothing
    thrown. *)
Lemma stopSession_without_resources s :
  liveSessionPromise s = None ->
  microphoneStream s = None ->
  scriptProcessorNode s = None ->
  inputAudioContext s = None ->
  outputAudioContext s = None ->
  stopSession s = Returns tt (setStatus Idle s) [].
Proof.
  destruct s; cbn; intros; subst; reflexivity.
Qed.

(** C9: calling [stopSession] twice in a row from the initial state
    throws neither time and leaves the status [idle]. *)
Theorem stop_twice_idle :
  let first := stopSession initial in
  let second := stopSession (final first) in
  returned first = true
  /\ returned second = true
  /\ status (final second) = Idle.
Proof.
  cbv zeta.
  rewrite (stopSession_without_resources initial) by reflexivity.
  cbn [final].
  rewrite (stopSession_without_resources (setStatus Idle initial)) by reflexivity.
  repeat split.
Qed.

(** C10: the close callback returns the state it was given, whatever
    status its closure captured: status, log, error message, buffers,
    cursor, active sources and handles are untouched; all it may do is
    write one line to the console. *)
Theorem close_changes_nothing captured s :
  let o := handleClose captured s in
  returned o = true
  /\ final o = s
  /\ step encode decode decodeAudioData add s (OnClose captured) = s
  /\ (effects o = [] \/ effects o = [ConsoleLog "Session closed."]).
Proof.
  destruct captured; cbn; auto.
Qed.

(** C6 (as the code runs): ids are clock readings, and two turns
    completed one millisecond apart give the assistant's message of the
    first and the user's message of the second the same id. *)
Theorem ids_can_repeat :
  let s := run encode decode decodeAudioData add two_quick_turns initial in
  reachable encode decode decodeAudioData add s
  /\ ids s = [1000; 1001; 1001]%Z
  /\ ~ NoDup (ids s).
Proof.
  cbv zeta. split; [exists two_quick_turns; reflexivity|].
  assert (E : ids (run encode decode decodeAudioData add two_quick_turns initial)
              = [1000; 1001; 1001]%Z) by reflexivity.
  rewrite E. split; [reflexivity|].
  intros Hnodup. inversion Hnodup as [|x l _ Htail]; subst.
  inversion Htail as [|y l' Hnotin _]; subst.
  apply Hnotin. left. reflexivity.
Qed.

End Properties.

(** ** Sample conversion in the capture callback *)

(** C2 (amended): the sample [1.0] scales to [32768], which is outside
    the signed 16-bit range, and the store into the [Int16Array] wraps
    it to [-32768]; [32767] is what the largest sample below [1.0]
    gives. *)
Theorem full_scale_sample_wraps :
  binary64_mul (binary64_of_Z 1) (binary64_of_Z 32768) = binary64_of_Z 32768
  /\ floatTo16BitPCM [binary64_of_Z 1] = [(-32768)%Z]
  /\ floatTo16BitPCM [below_full_scale] = [32767%Z].
Proof.
  repeat split; vm_compute; reflexivity.
Qed.

(** C2 (counterexample): the sample [1.0] does not convert to
    [32767]. *)
Lemma full_scale_sample_not_32767 :
  floatTo16BitPCM [binary64_of_Z 1] <> [32767%Z].
Proof.
  vm_compute. discriminate.
Qed.

(** ** Concrete runs *)

(** C3 (counterexample): an event carrying a fragment of each side
    leaves the user buffer as it was. *)
Lemma both_fragments_drop_user_side :
  ~ every_fragment_appended decode_any decode_one_second binary64_add
      (at_time 0 0) (bothFragments "Hello" "Hi") initial.
Proof.
  intros [Huser _].
  specialize (Huser (Some "Hello"%string) eq_refl).
  vm_compute in Huser. discriminate.
Qed.

(** C4 (counterexample): after an interruption the next payload starts
    at the clock, before the end of the payloads buffered earlier. *)
Lemma interruption_breaks_chain :
  ~ gapless binary64_add
      (schedule decode_any decode_one_second binary64_add interrupted_answer opened).
Proof.
  intros H. vm_compute in H.
  destruct H as [_ [_ [_ [H _]]]]. apply H. reflexivity.
Qed.

(** The cursor holds the binary64 sum, which can be below the exact
    one: a payload of a quarter of a second started at one tenth leaves
    the cursor at [12610078956637388 / 2^55], the exact sum being
    [12610078956637389 / 2^55], and the next payload starts there. *)
Lemma chain_is_to_the_rounded_sum :
  let first := handleMessage decode_any decode_quarter_second binary64_add
                             (at_time one_tenth 0) (audioPayload "AAAA") opened in
  nextAudioStartTime (final first) = 3152519739159347 # 9007199254740992
  /\ (nextAudioStartTime (final first) < one_tenth + (1 # 4))%Q
  /\ schedule decode_any decode_quarter_second binary64_add
       [(at_time one_tenth 0, audioPayload "AAAA");
        (at_time one_tenth 0, audioPayload "AAAA")] opened
     = [mkScheduled one_tenth one_tenth (1 # 4);
        mkScheduled one_tenth (3152519739159347 # 9007199254740992) (1 # 4)].
Proof.
  cbv zeta. split; [reflexivity|]. split; [|reflexivity].
  vm_compute. reflexivity.
Qed.

(** C8 (counterexample): a single assistant fragment holding one space,
    then the turn-complete signal, adds no message to the log. *)
Lemma blank_fragment_logs_nothing :
  ~ logs_one_assistant_message encode_latin1 decode_any decode_one_second binary64_add
      [(at_time 0 1000, " "%string)] (at_time 0 1001) initial.
Proof.
  intros [m [Hlog _]]. vm_compute in Hlog. discriminate.
Qed.

Lemma failed_start_ends_idle_witness :
  (getUserMedia denied = None \/ connect denied = None)
  /\ error (final (startSession denied initial))
     = Some "Could not access microphone. Please grant permission and try again."%string
  /\ status (final (startSession denied initial)) = Idle.
Proof.
  split; [left; reflexivity|].
  apply (failed_start_ends_idle denied initial). left. reflexivity.
Defined.

Lemma interruption_resets_playback_witness :
  flag interrupted interruptedSignal = true
  /\ audioSources playing <> []
  /\ audioSources (final (interrupt interruptedSignal playing)) = []
  /\ status (final (interrupt interruptedSignal playing)) = Listening.
Proof.
  split; [reflexivity|]. split; [discriminate|].
  destruct (interruption_resets_playback decode_any decode_one_second binary64_add
              (at_time 11 0) interruptedSignal playing eq_refl)
    as [[_ [Hempty [_ Hstatus]]] _].
  split; assumption.
Defined.

Lemma hello_turn_logged_witness :
  conversation
    (run encode_latin1 decode_any decode_one_second binary64_add
         [ OnMessage (at_time 0 1000) (inputFragment "Hel");
           OnMessage (at_time 0 1001) (outputFragment "Hi ");
           OnMessage (at_time 0 1002) (inputFragment "lo");
           OnMessage (at_time 0 1003) (outputFragment "there");
           OnMessage (at_time 0 1004) turnCompleteSignal ] initial)
  = [mkMessage 1004 User "Hello"; mkMessage 1005 Ai "Hi there"].
Proof.
  assert (Hevs : interleaved
                   [OnMessage (at_time 0 1000) (inputFragment "Hel");
                    OnMessage (at_time 0 1002) (inputFragment "lo")]
                   [OnMessage (at_time 0 1001) (outputFragment "Hi ");
                    OnMessage (at_time 0 1003) (outputFragment "there")]
                   [OnMessage (at_time 0 1000) (inputFragment "Hel");
                    OnMessage (at_time 0 1001) (outputFragment "Hi ");
                    OnMessage (at_time 0 1002) (inputFragment "lo");
                    OnMessage (at_time 0 1003) (outputFragment "there")]).
  { apply interleaved_left, interleaved_right, interleaved_left, interleaved_right,
      interleaved_nil. }
  destruct (hello_turn_logged encode_latin1 decode_any decode_one_second binary64_add initial
              (at_time 0 1000) (at_time 0 1002) (at_time 0 1001) (at_time 0 1003)
              (at_time 0 1004) _ eq_refl eq_refl Hevs) as [Hlog _].
  exact Hlog.
Defined.

Lemma assistant_only_turn_witness :
  userInputRef initial = EmptyString
  /\ aiOutputRef initial = EmptyString
  /\ conversation
       (run encode_latin1 decode_any decode_one_second binary64_add
            [ OnMessage (at_time 0 1000) (outputFragment "Hi ");
              OnMessage (at_time 0 1001) (outputFragment "there");
              OnMessage (at_time 0 1002) turnCompleteSignal ] initial)
     = [mkMessage 1003 Ai "Hi there"].
Proof.
  split; [reflexivity|]. split; [reflexivity|].
  destruct (assistant_only_turn encode_latin1 decode_any decode_one_second binary64_add initial
              [(at_time 0 1000, "Hi "%string); (at_time 0 1001, "there"%string)]
              (at_time 0 1002) eq_refl eq_refl) as [Hlog _].
  apply Hlog. vm_compute. discriminate.
Defined.

(* ------------------------------------------------------------------ *)
(** * Further properties of the callbacks *)

Section Coverage.

Variable encode : list Byte.byte -> string.
Variable decode : string -> option (list Byte.byte).
Variable decodeAudioData : list Byte.byte -> Z -> Z -> option AudioBuffer.
Variable add : Q -> Q -> Q.

(** ** Teardown *)

(** What a teardown that gets past the session promise does, call by
    call. *)
Lemma stopSession_returns s :
  liveSessionPromise s <> Some Rejected ->
  stopSession s =
  Returns tt
    (mkState Idle (conversation s) (error s) None
       (after_close (inputAudioContext s)) (after_close (outputAudioContext s))
       None None (userInputRef s) (aiOutputRef s) (nextAudioStartTime s)
       (audioSources s) (created s))
    (match liveSessionPromise s with Some _ => [SessionClose] | None => [] end
     ++ match microphoneStream s with
        | Some stream => map TrackStop (getTracks stream)
        | None => []
        end
     ++ match scriptProcessorNode s with Some n => [NodeDisconnect n] | None => [] end
     ++ close_calls (inputAudioContext s)
     ++ close_calls (outputAudioContext s)).
Proof.
  destruct s as [st conv err p ic oc mic sp u a t srcs n].
  cbn [liveSessionPromise]. intros Hp.
  unfold stopSession.
  unfold bind at 1. unfold modify at 1. cbn [prepend]. rewrite prepend_nil.
  unfold bind at 1. unfold get at 1. cbn [prepend]. rewrite prepend_nil.
  setters.
  destruct p as [[|]|]; [| congruence |];
    (destruct mic as [stream|];
     [ unfold bind; cbn [get modify emit ret prepend liveSessionPromise microphoneStream];
       setters; rewrite stop_tracks_returns
     | unfold bind; cbn [get modify emit ret prepend liveSessionPromise microphoneStream];
       setters ]);
    destruct sp as [n0|], ic as [[r1 [| |]]|], oc as [[r2 [| |]]|];
    cbn; rewrite ?app_nil_r, <- ?app_assoc; reflexivity.
Qed.

Lemma stopSession_rejected s :
  liveSessionPromise s = Some Rejected ->
  stopSession s = Throws SessionRejected (setStatus Idle s) [].
Proof.
  destruct s as [st conv err p ic oc mic sp u a t srcs n].
  cbn [liveSessionPromise]. intros ->. reflexivity.
Qed.

(** X1: a teardown that gets past the session promise returns with
    status [idle], the session, stream and processor refs cleared and no
    open audio context left referenced; every track of the stream has
    been stopped and every context that was not closed has been
    closed. *)
Theorem stopSession_releases s :
  liveSessionPromise s <> Some Rejected ->
  let o := stopSession s in
  returned o = true
  /\ status (final o) = Idle
  /\ liveSessionPromise (final o) = None
  /\ microphoneStream (final o) = None
  /\ scriptProcessorNode (final o) = None
  /\ (forall ctx, inputAudioContext (final o) = Some ctx \/
                  outputAudioContext (final o) = Some ctx -> state ctx = Closed)
  /\ (forall stream track,
         microphoneStream s = Some stream -> In track (getTracks stream) ->
         In (TrackStop track) (effects o))
  /\ (forall ctx, inputAudioContext s = Some ctx \/ outputAudioContext s = Some ctx ->
                  state ctx <> Closed -> In (ContextClose ctx) (effects o)).
Proof.
  intros Hp. cbv zeta. rewrite (stopSession_returns s Hp).
  cbn [returned final effects status liveSessionPromise microphoneStream
       scriptProcessorNode inputAudioContext outputAudioContext].
  repeat split.
  - intros ctx [H|H]; unfold after_close in H;
      [destruct (inputAudioContext s) as [c|] | destruct (outputAudioContext s) as [c|]];
      try discriminate; destruct (state c) eqn:E; try discriminate;
      injection H as <-; assumption.
  - intros stream track Hs Hin. rewrite Hs.
    apply in_or_app. right. apply in_or_app. left. now apply in_map.
  - intros ctx Hctx Hopen. rewrite !in_app_iff.
    assert (Hcall : In (ContextClose ctx) (close_calls (Some ctx)))
      by (unfold close_calls; destruct (state ctx); try congruence; now left).
    destruct Hctx as [H|H]; rewrite H; auto.
Qed.

(** X2: when the session promise has rejected, teardown throws at the
    [await] right after setting the status: nothing is released, the
    microphone stream, the processor and both contexts stay as they
    were. *)
Theorem stopSession_stops_short s :
  liveSessionPromise s = Some Rejected ->
  let o := stopSession s in
  returned o = false
  /\ effects o = []
  /\ status (final o) = Idle
  /\ microphoneStream (final o) = microphoneStream s
  /\ scriptProcessorNode (final o) = scriptProcessorNode s
  /\ inputAudioContext (final o) = inputAudioContext s
  /\ outputAudioContext (final o) = outputAudioContext s
  /\ liveSessionPromise (final o) = Some Rejected.
Proof.
  intros Hp. cbv zeta. rewrite (stopSession_rejected s Hp).
  destruct s; cbn in *; subst; repeat split.
Qed.

Lemma after_close_twice ref : after_close (after_close ref) = after_close ref.
Proof.
  destruct ref as [[r st]|]; [|reflexivity]. destruct st; reflexivity.
Qed.

Lemma close_calls_after_close ref : close_calls (after_close ref) = [].
Proof.
  destruct ref as [[r st]|]; [|reflexivity]. destruct st; reflexivity.
Qed.

(** X3: teardown is idempotent: a second call right after the first
    releases nothing again (no call on any browser or session object)
    and leaves the state the first call left. *)
Theorem stopSession_idempotent s :
  let first := stopSession s in
  let second := stopSession (final first) in
  final second = final first
  /\ effects second = []
  /\ returned second = returned first.
Proof.
  cbv zeta.
  destruct (liveSessionPromise s) as [[|]|] eqn:Hp.
  - rewrite (stopSession_returns s) by congruence. cbn [final].
    rewrite stopSession_returns by (cbn; congruence).
    cbn [returned final effects status conversation error liveSessionPromise
         inputAudioContext outputAudioContext microphoneStream scriptProcessorNode
         userInputRef aiOutputRef nextAudioStartTime audioSources created].
    rewrite !after_close_twice, !close_calls_after_close. repeat split.
  - rewrite (stopSession_rejected s Hp). cbn [final].
    rewrite stopSession_rejected by (destruct s; assumption).
    destruct s; repeat split.
  - rewrite (stopSession_returns s) by congruence. cbn [final].
    rewrite stopSession_returns by (cbn; congruence).
    cbn [returned final effects status conversation error liveSessionPromise
         inputAudioContext outputAudioContext microphoneStream scriptProcessorNode
         userInputRef aiOutputRef nextAudioStartTime audioSources created].
    rewrite !after_close_twice, !close_calls_after_close. repeat split.
Qed.

(** Teardown leaves the log, the buffers, the cursor and the active set
    alone, whether it returns or throws. *)
Lemma stopSession_frame s :
  let s' := final (stopSession s) in
  conversation s' = conversation s
  /\ userInputRef s' = userInputRef s
  /\ aiOutputRef s' = aiOutputRef s
  /\ audioSources s' = audioSources s
  /\ error s' = error s.
Proof.
  cbv zeta.
  destruct (liveSessionPromise s) as [[|]|] eqn:Hp;
    [ rewrite (stopSession_returns s) by congruence
    | rewrite (stopSession_rejected s Hp)
    | rewrite (stopSession_returns s) by congruence ];
    destruct s; repeat split.
Qed.

(** ** Start *)

Lemma startSession_granted stream p s :
  startSession (mkPlatform (Some stream) (Some p)) s =
  Returns tt
    (mkState Thinking (conversation s) None (Some p)
       (Some (mkAudioContext INPUT_SAMPLE_RATE Running))
       (Some (mkAudioContext OUTPUT_SAMPLE_RATE Running))
       (Some stream) (scriptProcessorNode s) (userInputRef s) (aiOutputRef s) 0
       (audioSources s) (created s)) [].
Proof. destruct s. reflexivity. Qed.

(** A start that fails hands over to teardown, with the log, the
    buffers and the active set as they were. *)
Lemma startSession_failed w s :
  getUserMedia w = None \/ connect w = None ->
  exists s0,
    startSession w s
    = prepend [ConsoleError "Failed to start session:"] (stopSession s0)
    /\ conversation s0 = conversation s
    /\ userInputRef s0 = userInputRef s
    /\ aiOutputRef s0 = aiOutputRef s
    /\ audioSources s0 = audioSources s.
Proof.
  intros Hfail. unfold startSession.
  erewrite !bind_silent by reflexivity.
  destruct w as [[stream|] [p|]]; cbn in Hfail;
    [ destruct Hfail; discriminate | | | ];
    (erewrite try_catch_throws by reflexivity;
     cbn [app]; rewrite prepend_nil;
     unfold bind at 1; unfold emit at 1; cbn [prepend];
     erewrite !bind_silent by reflexivity;
     eexists; split; [reflexivity|]; destruct s; repeat split).
Qed.

Lemma startSession_frame w s :
  let s' := final (startSession w s) in
  conversation s' = conversation s
  /\ userInputRef s' = userInputRef s
  /\ aiOutputRef s' = aiOutputRef s
  /\ audioSources s' = audioSources s.
Proof.
  cbv zeta. destruct w as [[stream|] [p|]].
  - rewrite startSession_granted. repeat split.
  - destruct (startSession_failed (mkPlatform (Some stream) None) s (or_intror eq_refl))
      as [s0 [E [Hc [Hu [Ha Hs]]]]].
    rewrite E, final_prepend.
    destruct (stopSession_frame s0) as [Hc' [Hu' [Ha' [Hs' _]]]].
    rewrite Hc', Hu', Ha', Hs'. auto.
  - destruct (startSession_failed (mkPlatform None (Some p)) s (or_introl eq_refl))
      as [s0 [E [Hc [Hu [Ha Hs]]]]].
    rewrite E, final_prepend.
    destruct (stopSession_frame s0) as [Hc' [Hu' [Ha' [Hs' _]]]].
    rewrite Hc', Hu', Ha', Hs'. auto.
  - destruct (startSession_failed (mkPlatform None None) s (or_introl eq_refl))
      as [s0 [E [Hc [Hu [Ha Hs]]]]].
    rewrite E, final_prepend.
    destruct (stopSession_frame s0) as [Hc' [Hu' [Ha' [Hs' _]]]].
    rewrite Hc', Hu', Ha', Hs'. auto.
Qed.

Lemma failed_start_status w s :
  getUserMedia w = None \/ connect w = None ->
  status (final (startSession w s)) = Idle.
Proof.
  intros Hfail. destruct (startSession_failed w s Hfail) as [s0 [E _]].
  rewrite E, final_prepend. apply stopSession_status_error.
Qed.

Lemma final_detached (m : M unit) s : final (detached m s) = final (m s).
Proof.
  unfold detached, try_catch. destruct (m s); [reflexivity|].
  cbn. reflexivity.
Qed.

Lemma returned_detached (m : M unit) s : returned (detached m s) = true.
Proof.
  unfold detached, try_catch. destruct (m s); reflexivity.
Qed.

Lemma effects_detached (m : M unit) s : effects (detached m s) = effects (m s).
Proof.
  unfold detached, try_catch. destruct (m s); [reflexivity|].
  cbn. apply app_nil_r.
Qed.

(** ** The toggle *)

Lemma toggleSession_frame w s :
  let s' := final (toggleSession w s) in
  conversation s' = conversation s
  /\ userInputRef s' = userInputRef s
  /\ aiOutputRef s' = aiOutputRef s
  /\ audioSources s' = audioSources s.
Proof.
  cbv zeta. unfold toggleSession. unfold bind, get. cbn [prepend].
  rewrite !final_prepend.
  destruct (status s); rewrite final_detached;
    try apply startSession_frame;
    destruct (stopSession_frame s) as [Hc [Hu [Ha [Hs _]]]]; auto.
Qed.

Lemma toggleSession_status_cases w s :
  status (final (toggleSession w s)) = Thinking
  \/ status (final (toggleSession w s)) = Idle.
Proof.
  unfold toggleSession. unfold bind, get. cbn [prepend]. rewrite final_prepend.
  assert (Hstart : status (final (startSession w s)) = Thinking
                   \/ status (final (startSession w s)) = Idle).
  { destruct w as [[stream|] [p|]];
      [ left; rewrite startSession_granted; reflexivity
      | right; apply failed_start_status; cbn; auto .. ]. }
  destruct (status s); rewrite final_detached; try exact Hstart;
    right; apply stopSession_status_error.
Qed.

(** X4: clicks never touch the conversation log, the two transcription
    buffers or the set of active sources, whether they start a session
    (successfully or not) or stop one: in particular text pending in the
    buffers survives a stop and the start that follows. *)
Theorem clicks_keep_transcript clicks s :
  let s' := run encode decode decodeAudioData add (map OnClick clicks) s in
  conversation s' = conversation s
  /\ userInputRef s' = userInputRef s
  /\ aiOutputRef s' = aiOutputRef s
  /\ audioSources s' = audioSources s.
Proof.
  cbv zeta. revert s. induction clicks as [|w clicks IH]; intros s.
  - repeat split.
  - cbn [map run fold_left].
    destruct (IH (step encode decode decodeAudioData add s (OnClick w)))
      as [Hc [Hu [Ha Hs]]].
    unfold run in Hc, Hu, Ha, Hs. rewrite Hc, Hu, Ha, Hs.
    apply toggleSession_frame.
Qed.

(** X5: stopping a session that was started successfully and whose
    promise has resolved closes the session, stops every track of the
    stream the start obtained, closes the two contexts the start
    created, and leaves no handle behind. *)
Theorem start_then_stop_releases stream s :
  let started := final (startSession (mkPlatform (Some stream) (Some Fulfilled)) s) in
  let o := stopSession started in
  returned o = true
  /\ effects o
     = SessionClose
       :: map TrackStop (getTracks stream)
       ++ match scriptProcessorNode s with Some n => [NodeDisconnect n] | None => [] end
       ++ [ContextClose (mkAudioContext INPUT_SAMPLE_RATE Running);
           ContextClose (mkAudioContext OUTPUT_SAMPLE_RATE Running)]
  /\ liveSessionPromise (final o) = None
  /\ microphoneStream (final o) = None
  /\ scriptProcessorNode (final o) = None
  /\ inputAudioContext (final o) = None
  /\ outputAudioContext (final o) = None
  /\ status (final o) = Idle.
Proof.
  cbv zeta. rewrite startSession_granted. cbn [final].
  rewrite stopSession_returns by (cbn; congruence).
  cbn. repeat split.
Qed.

(** X6: a click always returns; it leaves the status [thinking] exactly
    when the status was [idle] or [error] and both the microphone
    request and the call to connect succeeded, and [idle] in every other
    case. *)
Theorem toggleSession_status w s :
  let o := toggleSession w s in
  returned o = true
  /\ (status (final o) = Thinking \/ status (final o) = Idle)
  /\ (status (final o) = Thinking <->
      (status s = Idle \/ status s = Error)
      /\ getUserMedia w <> None /\ connect w <> None).
Proof.
  cbv zeta. unfold toggleSession. unfold bind, get. cbn [prepend].
  rewrite returned_prepend, !final_prepend.
  assert (Hstop : status (final (stopSession s)) = Idle)
    by apply stopSession_status_error.
  assert (Hstart :
            (getUserMedia w <> None /\ connect w <> None
             /\ status (final (startSession w s)) = Thinking)
            \/ ((getUserMedia w = None \/ connect w = None)
                /\ status (final (startSession w s)) = Idle)).
  { destruct w as [[stream|] [p|]].
    - left. rewrite startSession_granted. repeat split; discriminate.
    - right. split; [now right|].
      apply (failed_start_status (mkPlatform (Some stream) None) s). now right.
    - right. split; [now left|].
      apply (failed_start_status (mkPlatform None (Some p)) s). now left.
    - right. split; [now left|].
      apply (failed_start_status (mkPlatform None None) s). now left. }
  destruct (status s) eqn:Hst; rewrite returned_detached, final_detached;
    (split; [reflexivity|]);
    try (rewrite Hstop; split; [now right|];
         split; [discriminate | intros [[H|H] _]; discriminate]);
    (destruct Hstart as [[Hm [Hc Hs]]|[Hf Hs]]; rewrite Hs;
     [ split; [now left|]; split; auto
     | split; [now right|]; split; [discriminate|];
       intros [_ [Hm Hc]]; destruct Hf; contradiction ]).
Qed.

(** X7: the label of the button says what a click does: it reads
    "Start Session" exactly when the click calls [startSession], and
    "Stop Session" exactly when it calls [stopSession]. *)
Theorem button_says_what_click_does w s :
  (buttonLabel (status s) = "Start Session"%string
   /\ toggleSession w s = detached (startSession w) s)
  \/ (buttonLabel (status s) = "Stop Session"%string
      /\ toggleSession w s = detached stopSession s).
Proof.
  unfold toggleSession, bind, get. cbn [prepend]. rewrite prepend_nil.
  destruct (status s); cbn; auto.
Qed.

(** ** The error callback *)

Lemma handleError_eq s :
  handleError s
  = prepend [ConsoleError "Session error:"]
      (detached stopSession
         (setStatus Error
            (setError
               (Some "An error occurred with the connection. Please try again."%string)
               s))).
Proof.
  unfold handleError. unfold bind at 1. unfold emit at 1. cbn [prepend].
  erewrite !bind_silent by reflexivity. reflexivity.
Qed.

(** X8: the error callback always returns, also when the teardown it
    launches throws; it records the connection message, and the status
    it leaves is [idle], the teardown having overwritten the [error] it
    set. *)
Theorem handleError_outcome s :
  let o := handleError s in
  returned o = true
  /\ error (final o)
     = Some "An error occurred with the connection. Please try again."%string
  /\ status (final o) = Idle
  /\ In (ConsoleError "Session error:") (effects o).
Proof.
  cbv zeta. rewrite handleError_eq.
  rewrite returned_prepend, final_prepend, effects_prepend.
  rewrite returned_detached, final_detached.
  match goal with
  | |- context [stopSession ?s0] =>
      destruct (stopSession_status_error s0) as [Hst Herr]
  end.
  rewrite Hst, Herr. destruct s; repeat split. now left.
Qed.

(** ** Audio payloads *)

(** The transcription blocks leave the playback refs alone. *)
Lemma transcribed_playback env message s :
  let s' := transcribed env message s in
  outputAudioContext s' = outputAudioContext s
  /\ audioSources s' = audioSources s
  /\ nextAudioStartTime s' = nextAudioStartTime s
  /\ created s' = created s
  /\ (status s' = status s \/ status s' = Listening).
Proof.
  cbv zeta. rewrite transcribed_eq. cbv zeta.
  destruct (flag turnComplete message); destruct s; repeat split; auto.
Qed.

(** X9: a payload that does not decode makes the handler throw after it
    has set the status to [speaking] and moved the cursor up to the
    clock: no source is created or started, the active set is as it was,
    and an interruption signal carried by the same message is not
    processed. *)
Theorem undecodable_payload env message s base64 b64 :
  base64Audio message = inr base64 ->
  truthy base64 = Some b64 ->
  outputAudioContext s <> None ->
  chain (decode b64) (fun bytes => decodeAudioData bytes OUTPUT_SAMPLE_RATE 1) = None ->
  let o := handleMessage decode decodeAudioData add env message s in
  returned o = false
  /\ effects o = []
  /\ status (final o) = Speaking
  /\ audioSources (final o) = audioSources s
  /\ created (final o) = created s
  /\ nextAudioStartTime (final o)
     = Math_max (nextAudioStartTime s) (currentTime env).
Proof.
  intros Hv Hb Hctx Hdec. cbv zeta. rewrite handleMessage_playback.
  destruct (transcribed_playback env message s) as [Hc [Hs [Ht [Hn _]]]].
  unfold bind. rewrite playAudio_eq. cbv zeta. rewrite Hv, Hb, Hc, Hdec.
  destruct (outputAudioContext s); [|congruence].
  cbn [returned effects final]. rewrite <- Hs, <- Ht, <- Hn.
  destruct (transcribed env message s); repeat split.
Qed.

(** X10: an audio payload that arrives when there is no output context
    (before a start, after a stop) is dropped: nothing is started; the
    handler returns unless line 86 throws on a [modelTurn] without
    [parts]; and when it throws, or when the message carries no
    interruption signal, the active set and the cursor are as they were
    and no call is made at all. *)
Theorem audio_without_context_dropped env message s :
  outputAudioContext s = None ->
  let o := handleMessage decode decodeAudioData add env message s in
  scheduled_by env (effects o) = []
  /\ created (final o) = created s
  /\ (returned o = true <-> exists base64, base64Audio message = inr base64)
  /\ (flag interrupted message = false \/ returned o = false ->
      effects o = []
      /\ audioSources (final o) = audioSources s
      /\ nextAudioStartTime (final o) = nextAudioStartTime s).
Proof.
  intros Hctx. cbv zeta. rewrite handleMessage_playback.
  destruct (transcribed_playback env message s) as [Hc [Hs [Ht [Hn _]]]].
  unfold bind. rewrite playAudio_eq. cbv zeta. rewrite Hc, Hctx.
  destruct (base64Audio message) as [e|base64].
  - cbn [returned effects final]. rewrite Hs, Ht, Hn. repeat split.
    + discriminate.
    + intros [v Hv]. discriminate.
  - assert (E : match truthy base64 with
                | Some _ | _ => Returns tt (transcribed env message s) []
                end = Returns tt (transcribed env message s) [])
      by (destruct (truthy base64); reflexivity).
    rewrite E. rewrite prepend_nil, interrupt_returns.
    destruct (flag interrupted message); cbn [returned effects final].
    + rewrite scheduled_by_stops, <- Hn.
      split; [reflexivity|]. split; [destruct (transcribed env message s); reflexivity|].
      split; [split; [intros _; now exists base64|reflexivity]|].
      intros [Hfalse|Hfalse]; discriminate.
    + rewrite Hs, Ht, Hn. split; [reflexivity|]. split; [reflexivity|].
      split; [split; [intros _; now exists base64|reflexivity]|].
      intros _. repeat split.
Qed.

(** X11: a payload that decodes, with an output context and no
    interruption in the same message, starts exactly one new source at
    [max(cursor, clock)], adds it to the active set, moves the cursor to
    the sum of that start and the buffer's duration and leaves the
    status [speaking], also when the message completes a turn (which
    sets [listening] first). *)
Theorem audio_payload_scheduled env message s base64 b64 ctx audioBuffer :
  base64Audio message = inr base64 ->
  truthy base64 = Some b64 ->
  outputAudioContext s = Some ctx ->
  chain (decode b64) (fun bytes => decodeAudioData bytes OUTPUT_SAMPLE_RATE 1)
  = Some audioBuffer ->
  flag interrupted message = false ->
  let o := handleMessage decode decodeAudioData add env message s in
  let start := Math_max (nextAudioStartTime s) (currentTime env) in
  let source := mkSourceNode (created s) audioBuffer in
  returned o = true
  /\ effects o = [SourceStart source start]
  /\ status (final o) = Speaking
  /\ audioSources (final o) = Set_add source (audioSources s)
  /\ nextAudioStartTime (final o) = add start (duration audioBuffer).
Proof.
  intros Hv Hb Hctx Hdec Hsig. cbv zeta. rewrite handleMessage_playback.
  destruct (transcribed_playback env message s) as [Hc [Hs [Ht [Hn _]]]].
  unfold bind. rewrite playAudio_eq. cbv zeta. rewrite Hv, Hb, Hc, Hctx, Hdec.
  cbn [prepend]. rewrite interrupt_returns, Hsig.
  cbn [returned effects final app]. rewrite <- Hs, <- Ht, <- Hn.
  destruct (transcribed env message s); repeat split.
Qed.

Lemma Math_max_early a b : (b <= a)%Q -> (Math_max a b == a)%Q.
Proof.
  intros Hba. unfold Math_max. destruct (Qle_bool a b) eqn:E.
  - apply Qle_bool_iff in E. now apply Qle_antisym.
  - reflexivity.
Qed.

Lemma Math_max_late a b : (a <= b)%Q -> Math_max a b = b.
Proof.
  intros Hab. unfold Math_max. apply Qle_bool_iff in Hab. now rewrite Hab.
Qed.

(** X12: of two payloads scheduled by consecutive messages, the second
    starts exactly at the cursor the first left, which is the sum the
    code computed of the first one's start and duration, if its message
    is handled no later than that, and at the clock reading of its
    message otherwise. *)
Theorem chained_payloads_back_to_back e1 m1 e2 m2 s a b :
  flag interrupted m1 = false ->
  schedule decode decodeAudioData add [(e1, m1); (e2, m2)] s = [a; b] ->
  ((clock b <= add (startTime a) (playLength a))%Q ->
   (startTime b == add (startTime a) (playLength a))%Q)
  /\ ((add (startTime a) (playLength a) <= clock b)%Q -> startTime b = clock b).
Proof.
  intros Hsig Hsched. cbn [schedule] in Hsched. rewrite app_nil_r in Hsched.
  destruct (handleMessage_schedules decode decodeAudioData add e1 m1 s Hsig)
    as [[E1 _]|[d1 [E1 Hcur]]]; cbv zeta in E1; rewrite E1 in Hsched.
  - exfalso. cbn [app] in Hsched.
    destruct (handleMessage_starts decode decodeAudioData add e2 m2
                (final (handleMessage decode decodeAudioData add e1 m1 s)))
      as [E2|[d2 E2]]; cbv zeta in E2; rewrite E2 in Hsched; discriminate.
  - destruct (handleMessage_starts decode decodeAudioData add e2 m2
                (final (handleMessage decode decodeAudioData add e1 m1 s)))
      as [E2|[d2 E2]]; cbv zeta in E2; rewrite E2 in Hsched; [discriminate|].
    cbn [app] in Hsched. injection Hsched as <- <-.
    cbn [clock startTime playLength]. rewrite Hcur. split.
    + apply Math_max_early.
    + apply Math_max_late.
Qed.


(** ** The log *)

(** What one message adds to the log. *)
Lemma handleMessage_log env message s :
  exists u a,
    conversation (final (handleMessage decode decodeAudioData add env message s))
    = conversation s ++ (if flag turnComplete message then flushed env u a else []).
Proof.
  rewrite handleMessage_playback.
  destruct (playback_frame decode decodeAudioData add env message (transcribed env message s))
    as [Hc _].
  rewrite Hc, transcribed_eq. cbv zeta.
  destruct (flag turnComplete message).
  - eexists. eexists. destruct s; reflexivity.
  - exists EmptyString, EmptyString. destruct s; cbn. now rewrite app_nil_r.
Qed.

(** X14: one message adds at most two entries to the log; when it adds
    two, the first is the user's and the second the assistant's, and,
    if the clock did not go back between the two calls of [Date.now()],
    the user's id is the smaller one. *)
Theorem turn_logs_user_then_assistant env message s :
  exists added,
    conversation (final (handleMessage decode decodeAudioData add env message s))
    = conversation s ++ added
    /\ (List.length added <= 2)%nat
    /\ (forall m m', added = [m; m'] ->
                     speaker m = User /\ speaker m' = Ai
                     /\ ((dateNow env 0 <= dateNow env 1)%Z -> (id m < id m')%Z)).
Proof.
  destruct (handleMessage_log env message s) as [u [a E]].
  eexists. split; [exact E|].
  destruct (flag turnComplete message); [|split; [cbn; lia|discriminate]].
  unfold flushed.
  destruct (nonempty (trim u)), (nonempty (trim a)); cbn [app List.length];
    (split; [lia|]); intros m m' Hadded; try discriminate.
  injection Hadded as <- <-. cbn. repeat split. lia.
Qed.

Lemma flushed_not_blank env u a :
  Forall (fun m => nonempty (text m) = true) (flushed env u a).
Proof.
  unfold flushed.
  destruct (nonempty (trim u)) eqn:Hu, (nonempty (trim a)) eqn:Ha; cbn [app];
    repeat constructor; assumption.
Qed.

(** Every callback either leaves the log alone or appends messages
    with some text to it. *)
Lemma step_log ev s :
  exists added,
    conversation (step encode decode decodeAudioData add s ev) = conversation s ++ added
    /\ Forall (fun m => nonempty (text m) = true) added.
Proof.
  unfold step.
  destruct ev as [w| |env message| |captured|source|inputData]; cbn [dispatch].
  - exists []. rewrite app_nil_r. split; [|constructor].
    apply toggleSession_frame.
  - exists []. rewrite app_nil_r. split; [|constructor].
    unfold onopen, bind, get. cbn [prepend]. rewrite final_prepend.
    destruct (inputAudioContext s); destruct s; reflexivity.
  - destruct (handleMessage_log env message s) as [u [a E]].
    eexists. split; [exact E|].
    destruct (flag turnComplete message); [apply flushed_not_blank|constructor].
  - exists []. rewrite app_nil_r. split; [|constructor].
    rewrite handleError_eq, final_prepend, final_detached.
    match goal with
    | |- context [stopSession ?s0] => destruct (stopSession_frame s0) as [Hc _]
    end.
    rewrite Hc. destruct s; reflexivity.
  - exists []. rewrite app_nil_r. split; [|constructor].
    destruct captured; reflexivity.
  - exists []. rewrite app_nil_r. split; [|constructor].
    unfold onended, bind, modify, get. cbn [prepend]. rewrite !final_prepend.
    match goal with
    | |- context [if ?c then _ else _] => destruct c
    end; destruct s; reflexivity.
  - exists []. rewrite app_nil_r. split; [|constructor].
    unfold onaudioprocess, bind, get. cbn [prepend]. rewrite final_prepend.
    destruct (liveSessionPromise s) as [[|]|]; reflexivity.
Qed.

(** X15: the log only grows: whatever events the component handles, in
    whatever order, the log afterwards is the log before with messages
    appended; no message is ever removed, reordered or changed. *)
Theorem log_only_grows evs s :
  exists added,
    conversation (run encode decode decodeAudioData add evs s) = conversation s ++ added.
Proof.
  revert s. induction evs as [|ev evs IH]; intros s.
  - exists []. cbn. now rewrite app_nil_r.
  - cbn [run fold_left].
    destruct (step_log ev s) as [added1 [E1 _]].
    destruct (IH (step encode decode decodeAudioData add s ev)) as [added2 E2].
    exists (added1 ++ added2).
    unfold run in E2. rewrite E2, E1. now rewrite app_assoc.
Qed.

(** X16: no blank message is ever logged: in every state the component
    can reach, each message of the log has a text that is not empty. *)
Theorem logged_messages_not_blank s :
  reachable encode decode decodeAudioData add s ->
  Forall (fun m => text m <> EmptyString) (conversation s).
Proof.
  intros [evs <-].
  assert (H : forall evs s0,
             Forall (fun m => nonempty (text m) = true) (conversation s0) ->
             Forall (fun m => nonempty (text m) = true)
                    (conversation (run encode decode decodeAudioData add evs s0))).
  { clear evs. induction evs as [|ev evs IH]; intros s0 H0; [exact H0|].
    cbn [run fold_left]. apply IH.
    destruct (step_log ev s0) as [added [E Hadded]].
    rewrite E. apply Forall_app. split; assumption. }
  specialize (H evs initial (Forall_nil _)).
  eapply Forall_impl; [|exact H].
  intros m Hm Hblank. cbv beta in Hm. rewrite Hblank in Hm. discriminate.
Qed.

(** ** The status *)

Lemma handleMessage_status env message s :
  let s' := final (handleMessage decode decodeAudioData add env message s) in
  status s' = status s \/ status s' = Listening \/ status s' = Speaking.
Proof.
  cbv zeta. rewrite handleMessage_playback.
  destruct (transcribed_playback env message s) as [_ [_ [_ [_ Hst]]]].
  unfold bind. rewrite playAudio_eq. cbv zeta.
  destruct (base64Audio message) as [e|base64];
    [cbn [final]; destruct Hst as [->| ->]; auto|].
  destruct (truthy base64) as [b64|];
    [destruct (outputAudioContext (transcribed env message s)) as [ctx|];
     [destruct (chain (decode b64) _) as [b|]|]|];
    rewrite ?final_prepend, ?interrupt_returns;
    destruct (flag interrupted message); cbn [final];
    try (right; left; reflexivity);
    try (destruct (transcribed env message s); right; right; reflexivity);
    destruct Hst as [->| ->]; auto.
Qed.

(** The status a callback leaves is the one it found or one of [idle],
    [listening], [speaking], [thinking]. *)
Lemma step_status ev s :
  let s' := step encode decode decodeAudioData add s ev in
  status s' = status s \/ status s' <> Error.
Proof.
  cbv zeta. unfold step.
  destruct ev as [w| |env message| |captured|source|inputData]; cbn [dispatch].
  - right. destruct (toggleSession_status_cases w s) as [H|H];
      rewrite H; discriminate.
  - unfold onopen, bind, get. cbn [prepend]. rewrite final_prepend.
    destruct (inputAudioContext s); [right; discriminate|left; reflexivity].
  - destruct (handleMessage_status env message s) as [H|[H|H]];
      [left; assumption| right; rewrite H; discriminate ..].
  - right. rewrite handleError_eq, final_prepend, final_detached.
    match goal with
    | |- context [stopSession ?s0] =>
        destruct (stopSession_status_error s0) as [H _]
    end.
    rewrite H. discriminate.
  - left. destruct captured; reflexivity.
  - unfold onended, bind, modify, get. cbn [prepend]. rewrite !final_prepend.
    match goal with
    | |- context [if ?c then _ else _] => destruct c
    end; [right; discriminate|left; destruct s; reflexivity].
  - left. unfold onaudioprocess, bind, get. cbn [prepend]. rewrite final_prepend.
    destruct (liveSessionPromise s) as [[|]|]; reflexivity.
Qed.

(** X17: between callbacks the status is never [error]: both places
    that set it call the teardown in the same callback, and the teardown
    sets [idle]; so the red "Error" indicator of [StatusIndicator] is
    never what a reachable state renders. *)
Theorem status_never_error s :
  reachable encode decode decodeAudioData add s ->
  status s <> Error
  /\ getStatusInfo (status s) <> ("Error", "bg-red-500")%string.
Proof.
  intros [evs <-].
  assert (H : forall evs s0,
             status s0 <> Error ->
             status (run encode decode decodeAudioData add evs s0) <> Error).
  { clear evs. induction evs as [|ev evs IH]; intros s0 H0; [exact H0|].
    cbn [run fold_left]. apply IH.
    destruct (step_status ev s0) as [E|E]; [rewrite E|]; assumption. }
  assert (Hst : status (run encode decode decodeAudioData add evs initial) <> Error)
    by (apply H; discriminate).
  split; [exact Hst|].
  destruct (status (run encode decode decodeAudioData add evs initial));
    try discriminate. contradiction.
Qed.

(** ** End of playback *)

(** X18: when a source ends it leaves the active set and no other
    source does; the status becomes [listening] if that empties the set
    (whatever the status was, [idle] after a stop included) and is left
    alone otherwise. *)
Theorem onended_outcome source s :
  let o := onended source s in
  returned o = true
  /\ effects o = []
  /\ audioSources (final o) = Set_delete source (audioSources s)
  /\ (forall y, In y (audioSources (final o)) <->
                In y (audioSources s) /\ node y <> node source)
  /\ (audioSources (final o) = [] -> status (final o) = Listening)
  /\ (audioSources (final o) <> [] -> status (final o) = status s).
Proof.
  cbv zeta.
  assert (E : onended source s
              = if Nat.eqb (List.length (Set_delete source (audioSources s))) 0
                then Returns tt
                       (setStatus Listening
                          (set_audioSources (Set_delete source (audioSources s)) s)) []
                else Returns tt
                       (set_audioSources (Set_delete source (audioSources s)) s) []).
  { unfold onended, bind, modify, get. cbn [prepend]. rewrite !prepend_nil.
    destruct s; setters.
    match goal with
    | |- context [if ?c then _ else _] => destruct c
    end; reflexivity. }
  rewrite E.
  assert (Hin : forall y, In y (Set_delete source (audioSources s)) <->
                          In y (audioSources s) /\ node y <> node source).
  { intros y. unfold Set_delete. rewrite filter_In. unfold same_node.
    destruct (Nat.eqb_spec (node source) (node y)) as [Heq|Hne]; cbn; split;
      intros [Hy H]; split; try assumption; try discriminate; try congruence. }
  destruct (Set_delete source (audioSources s)) as [|y rest] eqn:Hdel; cbn [Nat.eqb List.length];
    destruct s; setters; cbn [returned effects final]; setters;
    repeat split; try apply Hin; try congruence; try (intros; apply Hin; assumption).
Qed.

(** ** Capture *)

Lemma Uint8Array_length int16 :
  List.length (Uint8Array_of_Int16Array int16) = (2 * List.length int16)%nat.
Proof.
  unfold Uint8Array_of_Int16Array.
  induction int16 as [|v l IH]; [reflexivity|].
  cbn [flat_map app List.length]. rewrite IH. lia.
Qed.

(** X19: the capture callback never changes the state and never throws;
    it sends one frame, of two bytes per sample and tagged
    [audio/pcm;rate=16000], when the session promise is fulfilled, and
    nothing otherwise; after a teardown, whether it returned or threw,
    it sends nothing. *)
Theorem capture_frames inputData s :
  let o := onaudioprocess encode inputData s in
  returned o = true
  /\ final o = s
  /\ (liveSessionPromise s = Some Fulfilled ->
      exists bytes,
        effects o = [SendRealtimeInput (encode bytes) "audio/pcm;rate=16000"]
        /\ List.length bytes = (2 * List.length inputData)%nat)
  /\ (liveSessionPromise s <> Some Fulfilled -> effects o = [])
  /\ effects (onaudioprocess encode inputData (final (stopSession s))) = [].
Proof.
  cbv zeta.
  assert (E : forall s0,
             onaudioprocess encode inputData s0
             = Returns tt s0
                 (match liveSessionPromise s0 with
                  | Some Fulfilled =>
                      [SendRealtimeInput
                         (encode (Uint8Array_of_Int16Array (floatTo16BitPCM inputData)))
                         "audio/pcm;rate=16000"]
                  | _ => []
                  end)).
  { intros s0. unfold onaudioprocess, bind, get. cbn [prepend].
    destruct (liveSessionPromise s0) as [[|]|]; reflexivity. }
  rewrite !E. cbn [returned final effects]. repeat split.
  - intros ->. eexists. split; [reflexivity|].
    rewrite Uint8Array_length. unfold floatTo16BitPCM. now rewrite length_map.
  - intros Hp. destruct (liveSessionPromise s) as [[|]|]; congruence.
  - destruct (liveSessionPromise s) as [[|]|] eqn:Hp.
    + rewrite stopSession_returns by congruence. reflexivity.
    + rewrite (stopSession_rejected s Hp). destruct s; cbn in *; subst. reflexivity.
    + rewrite stopSession_returns by congruence. reflexivity.
Qed.

End Coverage.

(** ** 16-bit samples *)

(** X20: the conversion keeps one integer per sample, and every integer
    it produces is a signed 16-bit value, whatever the samples (out of
    range, infinite or NaN included). *)
Theorem floatTo16BitPCM_int16 inputData :
  List.length (floatTo16BitPCM inputData) = List.length inputData
  /\ Forall (fun v => (-32768 <= v <= 32767)%Z) (floatTo16BitPCM inputData).
Proof.
  unfold floatTo16BitPCM. split; [apply length_map|].
  apply Forall_forall. intros v Hv. apply in_map_iff in Hv.
  destruct Hv as [x [<- _]]. apply ToInt16_range.
Qed.

Lemma byte_of_Z_value z :
  (0 <= z < 256)%Z -> Z.of_N (Byte.to_N (byte_of_Z z)) = z.
Proof.
  intros Hz. unfold byte_of_Z.
  destruct (Byte.of_N (Z.to_N z)) as [b|] eqn:E.
  - apply Byte.to_of_N in E. rewrite E. lia.
  - apply Byte.of_N_None_iff in E. lia.
Qed.

(** X21: the byte view holds each 16-bit integer as two bytes, low byte
    first, in two's complement: the two bytes of [v] read as
    [b0 + 256 * b1] give [v mod 65536]. *)
Theorem int16_bytes_little_endian v rest :
  exists b0 b1,
    Uint8Array_of_Int16Array (v :: rest) = b0 :: b1 :: Uint8Array_of_Int16Array rest
    /\ (Z.of_N (Byte.to_N b0) + 256 * Z.of_N (Byte.to_N b1) = v mod 65536)%Z.
Proof.
  eexists. eexists. split; [reflexivity|].
  change 255%Z with (Z.ones 8).
  rewrite !Z.land_ones, Z.shiftr_div_pow2 by lia.
  change (2 ^ 8)%Z with 256%Z.
  rewrite !byte_of_Z_value by (apply Z.mod_pos_bound; lia).
  change 65536%Z with (256 * 256)%Z.
  rewrite Z.rem_mul_r by lia. reflexivity.
Qed.

(** ** Concrete runs of the further properties *)

Lemma stopSession_releases_witness :
  liveSessionPromise playing <> Some Rejected
  /\ microphoneStream playing <> None
  /\ microphoneStream (final (stopSession playing)) = None
  /\ In (TrackStop 0) (effects (stopSession playing)).
Proof.
  assert (Hp : liveSessionPromise playing <> Some Rejected) by discriminate.
  destruct (stopSession_releases playing Hp)
    as [_ [_ [_ [Hmic [_ [_ [Htracks _]]]]]]].
  split; [exact Hp|]. split; [discriminate|]. split; [exact Hmic|].
  apply (Htracks (mkMediaStream [0%nat]) 0%nat); [reflexivity|now left].
Defined.

Lemma stopSession_stops_short_witness :
  liveSessionPromise
    (final (startSession (mkPlatform (Some (mkMediaStream [0%nat])) (Some Rejected)) initial))
  = Some Rejected
  /\ microphoneStream
       (final (stopSession
                 (final (startSession
                           (mkPlatform (Some (mkMediaStream [0%nat])) (Some Rejected))
                           initial))))
     = Some (mkMediaStream [0%nat]).
Proof.
  split; [reflexivity|].
  destruct (stopSession_stops_short
              (final (startSession
                        (mkPlatform (Some (mkMediaStream [0%nat])) (Some Rejected))
                        initial)) eq_refl)
    as [_ [_ [_ [Hmic _]]]].
  exact Hmic.
Defined.

Lemma undecodable_payload_witness :
  base64Audio (audioPayload "AAAA") = inr (Some "AAAA"%string)
  /\ outputAudioContext opened <> None
  /\ status (final (handleMessage (fun _ => None) decode_one_second binary64_add
                                  (at_time 10 0) (audioPayload "AAAA") opened))
     = Speaking
  /\ audioSources (final (handleMessage (fun _ => None) decode_one_second binary64_add
                                        (at_time 10 0) (audioPayload "AAAA") opened))
     = [].
Proof.
  assert (Hctx : outputAudioContext opened <> None) by discriminate.
  destruct (undecodable_payload (fun _ => None) decode_one_second binary64_add
              (at_time 10 0) (audioPayload "AAAA") opened (Some "AAAA"%string) "AAAA"
              eq_refl eq_refl Hctx eq_refl)
    as [_ [_ [Hst [Hsrc _]]]].
  split; [reflexivity|]. split; [exact Hctx|]. split; [exact Hst|exact Hsrc].
Defined.

Lemma audio_without_context_dropped_witness :
  outputAudioContext initial = None
  /\ effects (handleMessage decode_any decode_one_second binary64_add
                            (at_time 10 0) (audioPayload "AAAA") initial) = []
  /\ returned (handleMessage decode_any decode_one_second binary64_add
                             (at_time 10 0) interruptedWithoutParts initial) = false.
Proof.
  split; [reflexivity|].
  destruct (audio_without_context_dropped decode_any decode_one_second binary64_add
              (at_time 10 0) (audioPayload "AAAA") initial eq_refl)
    as [_ [_ [_ H]]].
  split; [apply H; left; reflexivity|]. reflexivity.
Defined.

Lemma audio_payload_scheduled_witness :
  outputAudioContext opened = Some (mkAudioContext OUTPUT_SAMPLE_RATE Running)
  /\ flag interrupted (audioPayload "AAAA") = false
  /\ status (final (handleMessage decode_any decode_one_second binary64_add
                                  (at_time 10 0) (audioPayload "AAAA") opened))
     = Speaking
  /\ nextAudioStartTime
       (final (handleMessage decode_any decode_one_second binary64_add
                             (at_time 10 0) (audioPayload "AAAA") opened))
     = 11.
Proof.
  split; [reflexivity|]. split; [reflexivity|].
  destruct (audio_payload_scheduled decode_any decode_one_second binary64_add
              (at_time 10 0) (audioPayload "AAAA") opened (Some "AAAA"%string) "AAAA"
              (mkAudioContext OUTPUT_SAMPLE_RATE Running) (mkAudioBuffer 1)
              eq_refl eq_refl eq_refl eq_refl eq_refl)
    as [_ [_ [Hst [_ Hcur]]]].
  split; [exact Hst|]. rewrite Hcur. reflexivity.
Defined.

Lemma chained_payloads_back_to_back_witness :
  schedule decode_any decode_one_second binary64_add buffered_answer opened
  = [mkScheduled 10 10 1; mkScheduled (81 # 8) 11 1]
  /\ (11 == binary64_add 10 1)%Q.
Proof.
  assert (Hsched : schedule decode_any decode_one_second binary64_add
                            buffered_answer opened
                   = [mkScheduled 10 10 1; mkScheduled (81 # 8) 11 1])
    by reflexivity.
  split; [exact Hsched|].
  destruct (chained_payloads_back_to_back decode_any decode_one_second binary64_add
              (at_time 10 0) (audioPayload "AAAA")
              (at_time (81 # 8) 0) (audioPayload "AAAA")
              opened (mkScheduled 10 10 1) (mkScheduled (81 # 8) 11 1)
              eq_refl Hsched) as [Hearly _].
  apply Hearly. vm_compute. discriminate.
Defined.


Lemma logged_messages_not_blank_witness :
  reachable encode_latin1 decode_any decode_one_second binary64_add
            (run encode_latin1 decode_any decode_one_second binary64_add two_quick_turns initial)
  /\ Forall (fun m => text m <> EmptyString)
            (conversation
               (run encode_latin1 decode_any decode_one_second binary64_add two_quick_turns initial)).
Proof.
  assert (Hreach : reachable encode_latin1 decode_any decode_one_second binary64_add
                     (run encode_latin1 decode_any decode_one_second binary64_add
                          two_quick_turns initial))
    by (exists two_quick_turns; reflexivity).
  split; [exact Hreach|].
  apply (logged_messages_not_blank encode_latin1 decode_any decode_one_second binary64_add _ Hreach).
Defined.

Lemma status_never_error_witness :
  reachable encode_latin1 decode_any decode_one_second binary64_add
            (run encode_latin1 decode_any decode_one_second binary64_add
                 [OnClick denied; OnError] initial)
  /\ status (run encode_latin1 decode_any decode_one_second binary64_add
                 [OnClick denied; OnError] initial) <> Error.
Proof.
  assert (Hreach : reachable encode_latin1 decode_any decode_one_second binary64_add
                     (run encode_latin1 decode_any decode_one_second binary64_add
                          [OnClick denied; OnError] initial))
    by (exists [OnClick denied; OnError]; reflexivity).
  split; [exact Hreach|].
  apply (status_never_error encode_latin1 decode_any decode_one_second binary64_add _ Hreach).
Defined.
